(** * QuestionnaireAnalysis (hw5.py): a shallow embedding and its properties

    The Python class [QuestionnaireAnalysis] keeps one pandas DataFrame in
    [self.data] and offers a cleaner, an age histogram, an e-mail filter,
    a missing-answer imputer, a scorer and a gender/age grouper over it.

    Modelling choices.
    - A cell of the frame is a [value]: missing ([NaN], which stands for
      None, NaN, NaT and pd.NA alike), a number, a string or a parsed
      point in time.  Numbers are exact rationals ([Qc]); the rounding of
      float64 is not represented, infinities do not occur.
    - A DataFrame is the list of its rows in order, each with its index
      label.  Every frame has the nine questionnaire columns; the score
      column is optional.  Which columns a frame without rows has is not
      represented.  [of_records] is the frame [pd.DataFrame(records)]
      builds from a list of records: labels 0, 1, 2, ...
    - A method is a function from the object ([self.data]) to a result
      (a value or a raised exception) and the object afterwards, so that
      in-place updates done before an exception stay visible.
    - pandas' parsers ([pd.to_numeric] on a string, [pd.to_datetime] on a
      string or a number) are parameters of the development; the rest of
      pandas and numpy is written out as pandas 2.x and numpy behave. *)

From Stdlib Require Import ZArith QArith Qcanon Qround String Ascii List Bool Lia Sorted.
From stdpp Require Import base option list strings countable gmap.

Local Open Scope string_scope.
Local Open Scope Z_scope.

(** ** Cells *)

Inductive value : Type :=
| NaN
| Num (x : Qc)
| Str (s : string)
| Timestamp (t : Z).

Definition isna (v : value) : bool :=
  match v with NaN => true | _ => false end.

Definition notna (v : value) : bool := negb (isna v).

#[global] Instance value_eq_dec : EqDecision value.
Proof. solve_decision. Defined.

Definition value_to_sum (v : value) : unit + Qc + string + Z :=
  match v with
  | NaN => inl (inl (inl tt))
  | Num x => inl (inl (inr x))
  | Str s => inl (inr s)
  | Timestamp t => inr t
  end.

Definition value_of_sum (u : unit + Qc + string + Z) : value :=
  match u with
  | inl (inl (inl _)) => NaN
  | inl (inl (inr x)) => Num x
  | inl (inr s) => Str s
  | inr t => Timestamp t
  end.

#[global] Instance value_countable : Countable value.
Proof.
  apply (inj_countable' value_to_sum value_of_sum).
  intros []; reflexivity.
Defined.

(** ** Numbers *)

Definition Qc_of_Z (z : Z) : Qc := Q2Qc (inject_Z z).

Definition Qc_leb (x y : Qc) : bool := Qle_bool x y.
Definition Qc_ltb (x y : Qc) : bool := negb (Qle_bool y x).

(** Truncation toward zero, the C conversion of a float to an integer. *)
Definition Qc_trunc (x : Qc) : Z := Z.quot (Qnum x) (Zpos (Qden x)).

Definition Qc_floor (x : Qc) : Z := Qfloor x.

(** ** Exceptions and results *)

Inductive exn : Type :=
| ValueError
| TypeError
| AttributeError
| IntCastingNaNError
| IndexError
| KeyError.

Inductive result (A : Type) : Type :=
| Ok (a : A)
| Raise (e : exn).
Arguments Ok {A} a.
Arguments Raise {A} e.

(** ** Rows and frames *)

(** The score column does not exist until [score_subjects] adds it:
    [None] is "no such column", [Some None] is pd.NA, [Some (Some n)] is
    the UInt8 value [n]. *)
Record Row : Type := mkRow {
  age : value;
  timestamp : value;
  email : value;
  gender : value;
  q1 : value;
  q2 : value;
  q3 : value;
  q4 : value;
  q5 : value;
  score : option (option Z)
}.

Inductive qcol : Type := Cq1 | Cq2 | Cq3 | Cq4 | Cq5.

Definition question_cols : list qcol := [Cq1; Cq2; Cq3; Cq4; Cq5].

Definition get_q (c : qcol) (r : Row) : value :=
  match c with
  | Cq1 => q1 r | Cq2 => q2 r | Cq3 => q3 r | Cq4 => q4 r | Cq5 => q5 r
  end.

Definition set_q (c : qcol) (v : value) (r : Row) : Row :=
  match c with
  | Cq1 => mkRow (age r) (timestamp r) (email r) (gender r) v (q2 r) (q3 r) (q4 r) (q5 r) (score r)
  | Cq2 => mkRow (age r) (timestamp r) (email r) (gender r) (q1 r) v (q3 r) (q4 r) (q5 r) (score r)
  | Cq3 => mkRow (age r) (timestamp r) (email r) (gender r) (q1 r) (q2 r) v (q4 r) (q5 r) (score r)
  | Cq4 => mkRow (age r) (timestamp r) (email r) (gender r) (q1 r) (q2 r) (q3 r) v (q5 r) (score r)
  | Cq5 => mkRow (age r) (timestamp r) (email r) (gender r) (q1 r) (q2 r) (q3 r) (q4 r) v (score r)
  end.

Definition set_age (v : value) (r : Row) : Row :=
  mkRow v (timestamp r) (email r) (gender r) (q1 r) (q2 r) (q3 r) (q4 r) (q5 r) (score r).
Definition set_timestamp (v : value) (r : Row) : Row :=
  mkRow (age r) v (email r) (gender r) (q1 r) (q2 r) (q3 r) (q4 r) (q5 r) (score r).
Definition set_email (v : value) (r : Row) : Row :=
  mkRow (age r) (timestamp r) v (gender r) (q1 r) (q2 r) (q3 r) (q4 r) (q5 r) (score r).
Definition set_gender (v : value) (r : Row) : Row :=
  mkRow (age r) (timestamp r) (email r) v (q1 r) (q2 r) (q3 r) (q4 r) (q5 r) (score r).
Definition set_score (v : option Z) (r : Row) : Row :=
  mkRow (age r) (timestamp r) (email r) (gender r) (q1 r) (q2 r) (q3 r) (q4 r) (q5 r) (Some v).

(** The answers of a row, in the order of [question_cols]. *)
Definition answers (r : Row) : list value := map (fun c => get_q c r) question_cols.

(** A frame: (index label, row) in row order.  A Series on the same index
    is a list of (label, cell). *)
Abbreviation DataFrame := (list (nat * Row)).
Abbreviation Series A := (list (nat * A)).

Definition index {A} (df : list (nat * A)) : list nat := map fst df.
Definition records (df : DataFrame) : list Row := map snd df.

(** [pd.DataFrame(list of records)]: a RangeIndex from zero. *)
Definition of_records (rs : list Row) : DataFrame := combine (seq 0 (length rs)) rs.

(** [df.reset_index(drop=True)] *)
Definition reset_index (df : DataFrame) : DataFrame := of_records (records df).

(** [df[col] = f(df[col])], cell by cell. *)
Definition map_rows (f : Row -> Row) (df : DataFrame) : DataFrame :=
  map (fun ir => (fst ir, f (snd ir))) df.

(** [df[mask]] for a mask computed row by row. *)
Definition where_rows (p : Row -> bool) (df : DataFrame) : DataFrame :=
  List.filter (fun ir => p (snd ir)) df.

(** [series[i]]: the cell at label [i]. *)
Fixpoint series_at {A} (s : Series A) (i : nat) : option A :=
  match s with
  | [] => None
  | (j, a) :: s' => if Nat.eqb j i then Some a else series_at s' i
  end.

(** [df.loc[i, question_cols] = ...]: every row labelled [i] is updated. *)
Definition loc_update (i : nat) (f : Row -> Row) (df : DataFrame) : DataFrame :=
  map (fun jr => if Nat.eqb (fst jr) i then (fst jr, f (snd jr)) else jr) df.

(** [df[col] = series] and [df.loc[mask, col] = ...] for a series computed
    from the same frame: both carry the same index, so the alignment pairs
    the rows in order. *)
Definition assign {A} (f : A -> Row -> Row) (s : Series A) (df : DataFrame) : DataFrame :=
  zip_with (fun ia ir => (fst ir, f (snd ia) (snd ir))) s df.

(** A Series computed from the frame row by row. *)
Definition series_of {A} (f : Row -> A) (df : DataFrame) : Series A :=
  map (fun ir => (fst ir, f (snd ir))) df.

(** ** The object and its methods' monad *)

Record QuestionnaireAnalysis : Type := mkQA { data : option DataFrame }.

Definition M (A : Type) : Type :=
  QuestionnaireAnalysis -> result A * QuestionnaireAnalysis.

#[global] Instance M_ret : MRet M := fun A a self => (Ok a, self).
#[global] Instance M_bind : MBind M := fun A B k c self =>
  match c self with
  | (Ok a, self') => k a self'
  | (Raise e, self') => (Raise e, self')
  end.

Definition raise {A} (e : exn) : M A := fun self => (Raise e, self).
Definition get_data : M (option DataFrame) := fun self => (Ok (data self), self).
Definition set_data (df : DataFrame) : M unit := fun _ => (Ok tt, mkQA (Some df)).

(** The object right after [read_data] has loaded the records [rs]. *)
Definition loaded (rs : list Row) : QuestionnaireAnalysis := mkQA (Some (of_records rs)).

(** ** Row statistics *)

(** The float in a numeric cell; NaN has none. *)
Definition float_cell (v : value) : option Qc :=
  match v with Num x => Some x | _ => None end.

(** The answers that are present. *)
Definition present (r : Row) : list Qc := omap float_cell (answers r).

Definition Qc_sum (xs : list Qc) : Qc := foldr Qcplus (Qc_of_Z 0) xs.

(** [mean()] with skipna: the mean of the values present, NaN if none.
    The mean is the exact one.  pandas computes it in float64 (the sum
    from left to right, then one division); the two agree in what is
    averaged, and in value whenever the values are whole numbers of
    moderate size (see [whole_answers]), where the float sum is exact and
    the rounding of the quotient cannot cross an integer.  Statements
    about the value of a mean, its floor or its sign are therefore made
    for whole-number answers only. *)
Definition mean_skipna (xs : list Qc) : option Qc :=
  match xs with
  | [] => None
  | _ => Some (Qc_sum xs / Qc_of_Z (Z.of_nat (length xs)))%Qc
  end.

(** [row.mean()] over the question columns. *)
Definition row_mean (r : Row) : option Qc := mean_skipna (present r).

Definition cell_of_float (o : option Qc) : value :=
  match o with Some x => Num x | None => NaN end.

(** [isna().sum(axis=1)] over the question columns. *)
Definition nan_count (r : Row) : Z :=
  Z.of_nat (length (List.filter isna (answers r))).

(** [isna().any(axis=1)] over the question columns. *)
Definition any_missing (r : Row) : bool := existsb isna (answers r).

(** ** Casting a float Series to uint8 (pandas 2.x)

    [Series.astype("uint8")] refuses a Series that holds NaN
    (IntCastingNaNError) and, for an unsigned target, one that holds a
    negative value (ValueError, "Cannot losslessly cast"); otherwise numpy
    converts each value through a signed 32-bit integer and keeps its low
    eight bits: a value below 2^31 is truncated toward zero and reduced
    modulo 256, a value of 2^31 or more comes out as 0 (x86-64). *)

Fixpoint finite_values (s : Series (option Qc)) : option (Series Qc) :=
  match s with
  | [] => Some []
  | (i, Some x) :: s' =>
      match finite_values s' with
      | Some xs => Some ((i, x) :: xs)
      | None => None
      end
  | (_, None) :: _ => None
  end.

Definition uint8_of_float (x : Qc) : Z :=
  let t := Qc_trunc x in
  if t <? 2 ^ 31 then t mod 256 else 0.

Definition astype_uint8 (s : Series (option Qc)) : result (Series Z) :=
  match finite_values s with
  | None => Raise IntCastingNaNError
  | Some xs =>
      if forallb (fun ix => Qc_leb (Qc_of_Z 0) (snd ix)) xs
      then Ok (map (fun ix => (fst ix, uint8_of_float (snd ix))) xs)
      else Raise ValueError
  end.

(** [.astype("UInt8")]: the same numbers in the nullable dtype. *)
Definition astype_UInt8 (s : Series Z) : Series (option Z) :=
  map (fun iz => (fst iz, Some (snd iz))) s.

(** ** Strings *)

Definition dot : ascii := "."%char.
Definition at_sign : ascii := "@"%char.

(** [c in s] for a one-character [c]. *)
Fixpoint contains (c : ascii) (s : string) : bool :=
  match s with
  | EmptyString => false
  | String a s' => Ascii.eqb a c || contains c s'
  end.

(** [s.split(sep)] for a one-character separator: the first piece and the
    pieces after it. *)
Fixpoint split_pieces (sep : ascii) (s : string) : string * list string :=
  match s with
  | EmptyString => (EmptyString, [])
  | String a s' =>
      let (p, ps) := split_pieces sep s' in
      if Ascii.eqb a sep then (EmptyString, p :: ps) else (String a p, ps)
  end.

Definition split (sep : ascii) (s : string) : list string :=
  let (p, ps) := split_pieces sep s in p :: ps.

(** [parts[-1]] of a split: the piece after the last separator. *)
Definition last_piece (sep : ascii) (s : string) : string :=
  let (p, ps) := split_pieces sep s in List.last ps p.

Definition startswith (c : ascii) (s : string) : bool :=
  match s with
  | String a _ => Ascii.eqb a c
  | EmptyString => false
  end.

Fixpoint endswith (c : ascii) (s : string) : bool :=
  match s with
  | EmptyString => false
  | String a EmptyString => Ascii.eqb a c
  | String _ s' => endswith c s'
  end.

(** [series.apply(f)] for an [f] that may raise: the first exception ends
    the call. *)
Fixpoint series_apply {A B} (f : A -> result B) (s : Series A) : result (Series B) :=
  match s with
  | [] => Ok []
  | (i, a) :: s' =>
      match f a with
      | Raise e => Raise e
      | Ok b =>
          match series_apply f s' with
          | Raise e => Raise e
          | Ok bs => Ok ((i, b) :: bs)
          end
      end
  end.

(** [df[mask]] for a boolean Series on the frame's own index. *)
Definition boolean_index (mask : Series bool) (df : DataFrame) : DataFrame :=
  map snd (List.filter (fun mr => snd (fst mr)) (zip mask df)).

(** [v.fillna(fill)] on one cell. *)
Definition fillna (fill v : value) : value := if isna v then fill else v.

Section Methods.

(** What [pd.to_numeric] makes of a string, and [pd.to_datetime] of a
    string or a number (a point in time, or nothing when it cannot be
    parsed). *)
Variable float_of_string : string -> option Qc.
Variable datetime_of : value -> option Z.

(** Whether [pd.to_datetime] gives the cell a time zone. *)
Variable tz_aware : value -> bool.

(** [pd.to_numeric(., errors='coerce')] on one cell. *)
Definition to_numeric (v : value) : value :=
  match v with
  | NaN => NaN
  | Num x => Num x
  | Str s => cell_of_float (float_of_string s)
  | Timestamp _ => NaN
  end.

(** [pd.to_datetime(., errors='coerce')] on one cell. *)
Definition to_datetime (v : value) : value :=
  match v with
  | NaN => NaN
  | Timestamp t => Timestamp t
  | _ => match datetime_of v with Some t => Timestamp t | None => NaN end
  end.

(** [df[col] = pd.to_numeric(df[col], errors='coerce')] *)
Definition coerce_column (col : qcol) (df : DataFrame) : DataFrame :=
  map_rows (fun r => set_q col (to_numeric (get_q col r)) r) df.

(** The same for every question column, one after the other
    ([for col in question_cols: ...]). *)
Definition coerce_questions (df : DataFrame) : DataFrame :=
  foldl (fun d col => coerce_column col d) df question_cols.

(** [df[question_columns] = df[question_columns].apply(pd.to_numeric,
    errors='coerce')]: the five columns at once. *)
Definition apply_to_numeric (df : DataFrame) : DataFrame :=
  map_rows (fun r =>
    mkRow (age r) (timestamp r) (email r) (gender r)
          (to_numeric (q1 r)) (to_numeric (q2 r)) (to_numeric (q3 r))
          (to_numeric (q4 r)) (to_numeric (q5 r)) (score r)) df.

Definition coerce_age (df : DataFrame) : DataFrame :=
  map_rows (fun r => set_age (to_numeric (age r)) r) df.

(** *** clean_data *)

Definition valid_genders : list string := ["Male"; "Female"; "Other"; "Fluid"].

(** [(df['age'] >= 0) & df['age'].notna()] *)
Definition age_ok (r : Row) : bool :=
  match age r with
  | Num x => Qc_leb (Qc_of_Z 0) x
  | _ => false
  end.

(** [df['timestamp'] <= datetime.now()] *)
Definition timestamp_ok (now : Z) (r : Row) : bool :=
  match timestamp r with
  | Timestamp t => t <=? now
  | _ => false
  end.

(** [lambda x: x if isinstance(x, str) and '@' in x
               and '.' in x.split('@')[-1] else np.nan] *)
Definition clean_email (x : value) : value :=
  match x with
  | Str s =>
      if contains at_sign s && contains dot (last_piece at_sign s) then x else NaN
  | _ => NaN
  end.

(** [lambda x: x if x in valid_genders else np.nan] *)
Definition clean_gender (x : value) : value :=
  match x with
  | Str s => if bool_decide (s ∈ valid_genders) then x else NaN
  | _ => NaN
  end.

(** The frame a call of [clean_data] returns, when it returns.  [data] is
    a frame already (a dict would be turned into one first); [now] is what
    [datetime.now()] returns during the call.  The call itself, which can
    raise on line 57, is [clean_data_call] below. *)
Definition clean_data (now : Z) (data : DataFrame) : DataFrame :=
  let df := data in
  let df := coerce_age df in
  let df := where_rows age_ok df in
  let df := map_rows (fun r => set_timestamp (to_datetime (timestamp r)) r) df in
  let df := where_rows (timestamp_ok now) df in
  let df := map_rows (fun r => set_email (clean_email (email r)) r) df in
  let df := where_rows (fun r => notna (email r)) df in
  let df := map_rows (fun r => set_gender (clean_gender (gender r)) r) df in
  let df := where_rows (fun r => notna (gender r)) df in
  coerce_questions df.

(** The call of [clean_data].  Comparing a time-zone-aware timestamp with
    the naive [datetime.now()] on line 57 raises TypeError; the rows that
    reach that line are those the age filter of line 53 kept. *)
Definition clean_data_call (now : Z) (data : DataFrame) : result DataFrame :=
  let df := where_rows age_ok (coerce_age data) in
  if existsb (fun ir => tz_aware (timestamp (snd ir))) df
  then Raise TypeError
  else Ok (clean_data now data).

(** *** remove_rows_without_mail *)

(** The chain of [and]s is evaluated left to right and stops at the first
    false operand; [domain[0]] raises IndexError on an empty string. *)
Definition is_valid_email (email : value) : result bool :=
  match email with
  | NaN => Ok false
  | Str s =>
      match split at_sign s with
      | [_; domain] =>
          if negb (contains dot domain) then Ok false
          else if startswith dot s then Ok false
          else if endswith dot s then Ok false
          else match domain with
               | String a _ => Ok (negb (Ascii.eqb a dot))
               | EmptyString => Raise IndexError
               end
      | _ => Ok false
      end
  | Num _ | Timestamp _ => Raise AttributeError
  end.

Definition remove_rows_without_mail : M DataFrame :=
  d ← get_data;
  match d with
  | None => raise TypeError
  | Some df =>
      match series_apply is_valid_email (series_of email df) with
      | Raise e => raise e
      | Ok mask => mret (reset_index (boolean_index mask df))
      end
  end.

(** *** fill_na_with_mean *)

(** [filled_df.loc[i, question_cols] = row[question_cols].fillna(m)]:
    the new answers of the rows labelled [i], taken from [row]. *)
Definition assign_filled (row : Row) (m : value) (target : Row) : Row :=
  foldl (fun t col => set_q col (fillna m (get_q col row)) t) target question_cols.

(** The loop over [filled_df.loc[rows_with_missing].iterrows()];
    [means[i]] raises KeyError for a label the Series does not have. *)
Fixpoint fill_loop (means : Series value) (todo : DataFrame) (filled_df : DataFrame)
  : result DataFrame :=
  match todo with
  | [] => Ok filled_df
  | (i, row) :: todo' =>
      match series_at means i with
      | None => Raise KeyError
      | Some m => fill_loop means todo' (loc_update i (assign_filled row m) filled_df)
      end
  end.

Definition fill_na_with_mean : M (DataFrame * list nat) :=
  d ← get_data;
  match d with
  | None => raise ValueError
  | Some df0 =>
      let df := coerce_questions df0 in
      _ ← set_data df;
      let rows_with_missing := series_of any_missing df in
      let means := series_of (fun r => cell_of_float (row_mean r)) df in
      let filled_df := df in
      match fill_loop means (boolean_index rows_with_missing filled_df) filled_df with
      | Raise e => raise e
      | Ok filled_df =>
          let rows := index (boolean_index rows_with_missing df) in
          mret (filled_df, rows)
      end
  end.

(** *** score_subjects *)

Definition score_subjects (maximal_nans_per_sub : Z) : M DataFrame :=
  d ← get_data;
  match d with
  | None => raise ValueError
  | Some df0 =>
      let df := apply_to_numeric df0 in
      _ ← set_data df;
      let score := series_of row_mean df in
      let nan_counts := series_of nan_count df in
      match astype_uint8 score with
      | Raise e => raise e
      | Ok u8 =>
          let df := assign set_score (astype_UInt8 u8) df in
          let df := assign (fun n r => if maximal_nans_per_sub <? n
                                       then set_score None r else r) nan_counts df in
          _ ← set_data df;
          mret df
      end
  end.


(** *** correlate_gender_age *)

(** [cleaned_data['age'] > 40] on one cell. *)
Definition age_above_40 (v : value) : bool :=
  match v with
  | Num x => Qc_ltb (Qc_of_Z 40) x
  | _ => false
  end.

(** [set_index(['gender', cleaned_data['age'] > 40])]: every row under
    its two-part label. *)
Definition set_index_gender_age (df : DataFrame) : list (value * bool * Row) :=
  map (fun ir => (gender (snd ir), age_above_40 (age (snd ir)), snd ir)) df.

(** [groupby(level=['gender', 'age'])]: the rows of each label, in frame
    order.  groupby runs with its default [dropna=True], so a row whose
    gender is missing belongs to no group (the second part of the label
    is a boolean and never missing).  The table is a finite map: the
    order in which pandas lists the groups is not represented. *)
Definition groupby (keyed : list (value * bool * Row)) : gmap (value * bool) (list Row) :=
  foldr (fun kr groups =>
           if isna (fst (fst kr)) then groups
           else <[fst kr := snd kr :: default [] (groups !! fst kr)]> groups)
        ∅ keyed.

(** The mean of one question over the rows of a group, NaN skipped. *)
Definition column_mean (col : qcol) (rows : list Row) : value :=
  cell_of_float (mean_skipna (omap (fun r => float_cell (get_q col r)) rows)).

(** One mean per question, in the order of [question_cols]. *)
Definition group_means (rows : list Row) : list value :=
  map (fun col => column_mean col rows) question_cols.

Definition correlate_gender_age : M (gmap (value * bool) (list value)) :=
  d ← get_data;
  match d with
  | None => raise ValueError
  | Some df0 =>
      let df := apply_to_numeric df0 in
      let df := coerce_age df in
      _ ← set_data df;
      let cleaned_data := where_rows (fun r => notna (age r)) df in
      let keyed := set_index_gender_age cleaned_data in
      let grouped := group_means <$> groupby keyed in
      mret grouped
  end.

(** *** show_age_distrib *)

(** [np.arange(start, stop, step)] for a positive integer step. *)
Definition arange (start stop step : Z) : list Z :=
  map (fun k => start + step * Z.of_nat k)
      (seq 0 (Z.to_nat ((stop - start + step - 1) / step))).

(** [.astype(int)] on one float: truncation toward zero into a signed
    64-bit integer; a value that does not fit comes out as the least
    64-bit integer (what the x86-64 conversion gives). *)
Definition astype_int (x : Qc) : Z :=
  let t := Qc_trunc x in
  if (- 2 ^ 63 <=? t) && (t <? 2 ^ 63) then t else - 2 ^ 63.

(** [pd.to_numeric(self.data['age'], errors='coerce').dropna()
      .astype(int).values] *)
Definition int_ages (df : DataFrame) : list Z :=
  omap (fun ir => astype_int <$> float_cell (to_numeric (age (snd ir)))) df.

(** How many values satisfy [p]. *)
Definition count_where {A} (p : A -> bool) (l : list A) : Z :=
  Z.of_nat (length (List.filter p l)).

(** [sa.searchsorted(e, 'left')] and [sa.searchsorted(e, 'right')] on the
    sorted values [sa]: how many of them are below [e], and how many are
    at most [e]. *)
Definition searchsorted_left (a : list Z) (e : Z) : Z := count_where (fun x => x <? e) a.
Definition searchsorted_right (a : list Z) (e : Z) : Z := count_where (fun x => x <=? e) a.

(** [np.diff] *)
Fixpoint diff (l : list Z) : list Z :=
  match l with
  | x :: ((y :: _) as l') => (y - x) :: diff l'
  | _ => []
  end.

(** [np.histogram(a, bins=edges)] for an array of edges: the cumulative
    counts at the edges ([v[:-1]] searched on the left, [v[-1:]] on the
    right, so that the last bin is closed), then their differences. *)
Definition histogram (a : list Z) (bins : list Z) : list Z * list Z :=
  let cum_n := (map (searchsorted_left a) (take (length bins - 1)%nat bins)
                ++ map (searchsorted_right a) (drop (length bins - 1)%nat bins))%list in
  (diff cum_n, bins).

Definition show_age_distrib : M (list Z * list Z) :=
  d ← get_data;
  match d with
  | None => raise ValueError
  | Some df =>
      let bins := arange 0 101 10 in
      let ages := int_ages df in
      mret (histogram ages bins)
  end.

(** ** Row-level descriptions used in the statements *)

(** A row after the question columns went through [pd.to_numeric]. *)
Definition coerce_row (r : Row) : Row :=
  mkRow (age r) (timestamp r) (email r) (gender r)
        (to_numeric (q1 r)) (to_numeric (q2 r)) (to_numeric (q3 r))
        (to_numeric (q4 r)) (to_numeric (q5 r)) (score r).

(** Imputation as the specification words it: every missing answer of the
    row becomes the mean of the answers the row has. *)
Definition impute_row (r : Row) : Row :=
  mkRow (age r) (timestamp r) (email r) (gender r)
        (fillna (cell_of_float (row_mean r)) (q1 r))
        (fillna (cell_of_float (row_mean r)) (q2 r))
        (fillna (cell_of_float (row_mean r)) (q3 r))
        (fillna (cell_of_float (row_mean r)) (q4 r))
        (fillna (cell_of_float (row_mean r)) (q5 r)) (score r).

(** What the scorer makes of a coerced row: the mean cast to UInt8, then
    pd.NA when the row has too many NaN.  A row without a mean gets no
    score written, because the cast of the whole column raises. *)
Definition score_row (maximal_nans_per_sub : Z) (r : Row) : Row :=
  match row_mean r with
  | Some x =>
      let r' := set_score (Some (uint8_of_float x)) r in
      if maximal_nans_per_sub <? nan_count r then set_score None r' else r'
  | None => r
  end.

(** The answers of the row are whole numbers of moderate size: on such
    answers the float64 sum is exact and the floor and the sign of the
    float64 mean are those of the exact mean. *)
Definition whole_answers (r : Row) : Prop :=
  Forall (fun x => exists z, x = Qc_of_Z z /\ Z.abs z <= 2 ^ 50) (present r).

(** A row the uint8 cast accepts: it has a mean and the mean is not
    negative. *)
Definition castable (r : Row) : Prop :=
  exists x, row_mean r = Some x /\ (Qc_of_Z 0 <= x)%Qc.

(** The rows [clean_data] keeps, and what it makes of a kept row. *)
Definition keeps (now : Z) (r : Row) : bool :=
  age_ok (set_age (to_numeric (age r)) r)
  && timestamp_ok now (set_timestamp (to_datetime (timestamp r)) r)
  && notna (clean_email (email r))
  && notna (clean_gender (gender r)).

Definition clean_row (r : Row) : Row :=
  mkRow (to_numeric (age r)) (to_datetime (timestamp r)) (clean_email (email r))
        (clean_gender (gender r))
        (to_numeric (q1 r)) (to_numeric (q2 r)) (to_numeric (q3 r))
        (to_numeric (q4 r)) (to_numeric (q5 r)) (score r).

(** The members of the group [(g, b)]: the rows with an age, that gender
    and that side of 40. *)
Definition in_group (g : value) (b : bool) (r : Row) : bool :=
  notna (age r) && bool_decide (gender r = g) && Bool.eqb (age_above_40 (age r)) b.

(** The age of a row as a number, when it coerces to one. *)
Definition age_of (r : Row) : option Qc := float_cell (to_numeric (age r)).

(** How many rows have an age that coerces to a number satisfying [p]. *)
Definition count_ages (p : Qc -> bool) (df : DataFrame) : Z :=
  count_where (fun ir => match age_of (snd ir) with
                         | Some x => p x
                         | None => false
                         end) df.

End Methods.

(** ** The age bins in terms of the ages themselves *)

(** Bin [k] of the age histogram, [k] from 0 to 9, as a condition on the
    age before it is truncated. *)
Definition age_bin (k : Z) (x : Qc) : bool :=
  (if k =? 0 then Qc_ltb (Qc_of_Z (-1)) x else Qc_leb (Qc_of_Z (10 * k)) x)
  && (if k =? 9 then Qc_ltb x (Qc_of_Z 101) else Qc_ltb x (Qc_of_Z (10 * k + 10))).

(** ** The e-mail rule in the specification's words *)

Fixpoint count_char (c : ascii) (s : string) : nat :=
  match s with
  | EmptyString => O
  | String a s' => if Ascii.eqb a c then S (count_char c s') else count_char c s'
  end.

(** The substring after the first [c]; empty when there is none. *)
Fixpoint after_first (c : ascii) (s : string) : string :=
  match s with
  | EmptyString => EmptyString
  | String a s' => if Ascii.eqb a c then s' else after_first c s'
  end.

Definition email_rule (s : string) : Prop :=
  count_char at_sign s = 1%nat
  /\ contains dot (after_first at_sign s) = true
  /\ startswith dot s = false
  /\ endswith dot s = false
  /\ startswith dot (after_first at_sign s) = false.

Definition email_ruleb (s : string) : bool :=
  Nat.eqb (count_char at_sign s) 1
  && contains dot (after_first at_sign s)
  && negb (startswith dot s)
  && negb (endswith dot s)
  && negb (startswith dot (after_first at_sign s)).

(** A row survives the e-mail filter when its e-mail is a string that
    follows the rule. *)
Definition survives (r : Row) : bool :=
  match email r with
  | Str s => email_ruleb s
  | _ => false
  end.

(** An e-mail cell the filter can look at: a string or missing. *)
Definition text_or_missing (v : value) : bool :=
  match v with
  | Str _ | NaN => true
  | _ => false
  end.

(** ** Sample data *)

(** Parsers that recognise nothing: enough for data whose cells are
    already numbers, points in time or missing. *)
Definition no_float (_ : string) : option Qc := None.
Definition no_datetime (_ : value) : option Z := None.
Definition no_tz (_ : value) : bool := false.

Definition Int (z : Z) : value := Num (Qc_of_Z z).

(** A subject known only by its five answers. *)
Definition subject (a1 a2 a3 a4 a5 : value) : Row :=
  mkRow NaN NaN NaN NaN a1 a2 a3 a4 a5 None.

Definition three_subjects : list Row :=
  [ subject (Int 10) (Int 20) (Int 30) (Int 40) (Int 50);
    subject (Int 10) (Int 20) (Int 30) (Int 40) NaN;
    subject (Int 10) (Int 20) (Int 30) NaN NaN ].

Definition silent_subject : Row := subject NaN NaN NaN NaN NaN.

Definition loud_subject : Row := subject (Int 200) (Int 200) (Int 200) (Int 200) (Int 200).


Definition partial_subject : Row := subject (Int 1) (Int 2) NaN NaN (Int 4).

Definition mixed_subjects : list Row :=
  [ silent_subject; partial_subject; subject (Int 1) (Int 2) (Int 1) (Int 2) (Int 4) ].

Definition person (a : value) (t : value) (e : value) (g : string) : Row :=
  mkRow a t e (Str g) NaN NaN NaN NaN NaN None.

(** Thirty years old, registered at time 0, with two [@] in the address. *)
Definition two_at_signs : Row := person (Int 30) (Timestamp 0) (Str "a@b@c.d") "Male".

Definition mail_frame : DataFrame :=
  of_records
    [ person (Int 30) NaN (Str "a@b.c") "Male";
      person (Int 30) NaN (Str "a@b@c.d") "Male";
      person (Int 30) NaN NaN "Male";
      person (Int 30) NaN (Str ".a@b.c") "Female";
      person (Int 30) NaN (Str "a@.b.c") "Female";
      person (Int 30) NaN (Str "d@e.f") "Other" ].

(** A valid address, then an e-mail cell that holds the number 5. *)
Definition numeric_mail_frame : DataFrame :=
  of_records
    [ person (Int 30) NaN (Str "a@b.c") "Male";
      person (Int 30) NaN (Int 5) "Male" ].

Definition mail_frame_filtered : DataFrame :=
  of_records
    [ person (Int 30) NaN (Str "a@b.c") "Male";
      person (Int 30) NaN (Str "d@e.f") "Other" ].

Definition three_subjects_scored : DataFrame :=
  of_records
    [ set_score (Some 30) (subject (Int 10) (Int 20) (Int 30) (Int 40) (Int 50));
      set_score (Some 25) (subject (Int 10) (Int 20) (Int 30) (Int 40) NaN);
      set_score None (subject (Int 10) (Int 20) (Int 30) NaN NaN) ].

Definition male (a q : Z) : Row :=
  mkRow (Int a) NaN NaN (Str "Male") (Int q) NaN NaN NaN NaN None.


Definition three_subjects_unscored : DataFrame :=
  of_records
    [ set_score None (subject (Int 10) (Int 20) (Int 30) (Int 40) (Int 50));
      set_score None (subject (Int 10) (Int 20) (Int 30) (Int 40) NaN);
      set_score None (subject (Int 10) (Int 20) (Int 30) NaN NaN) ].

(** Forty-five years old, q1 = 80, gender not given. *)
Definition genderless : Row :=
  mkRow (Int 45) NaN NaN NaN (Int 80) NaN NaN NaN NaN None.

(** * Properties *)

(** ** Numbers *)

Lemma Qc_leb_le (x y : Qc) : Qc_leb x y = true <-> (x <= y)%Qc.
Proof. unfold Qc_leb, Qcle. apply Qle_bool_iff. Qed.

Lemma Qc_ltb_lt (x y : Qc) : Qc_ltb x y = true <-> (x < y)%Qc.
Proof.
  unfold Qc_ltb, Qclt. rewrite negb_true_iff.
  split; intros H.
  - apply Qnot_le_lt. intros Hle. apply Qle_bool_iff in Hle. congruence.
  - destruct (Qle_bool y x) eqn:E; [|reflexivity].
    apply Qle_bool_iff in E. exfalso. exact (Qlt_not_le _ _ H E).
Qed.

Lemma Qc_trunc_floor (x : Qc) : (Qc_of_Z 0 <= x)%Qc -> Qc_trunc x = Qc_floor x.
Proof.
  unfold Qc_trunc, Qc_floor, Qcle. destruct x as [[n d] Hc]; simpl.
  unfold Qle; simpl. intros H.
  apply Z.quot_div_nonneg; lia.
Qed.

Lemma Qc_floor_ge (x : Qc) (lo : Z) :
  (Qc_of_Z lo <= x)%Qc -> lo <= Qc_floor x.
Proof.
  unfold Qc_floor, Qcle, Qc_of_Z. simpl. intros Hlo.
  rewrite Qred_correct in Hlo.
  apply Qfloor_resp_le in Hlo. rewrite Qfloor_Z in Hlo. exact Hlo.
Qed.

Lemma Qc_floor_between (x : Qc) (lo hi : Z) :
  (Qc_of_Z lo <= x)%Qc -> (x <= Qc_of_Z hi)%Qc -> lo <= Qc_floor x <= hi.
Proof.
  unfold Qc_floor, Qcle, Qc_of_Z. simpl. intros Hlo Hhi.
  rewrite Qred_correct in Hlo, Hhi.
  apply Qfloor_resp_le in Hlo, Hhi. rewrite Qfloor_Z in Hlo, Hhi. lia.
Qed.

Lemma Qc_floor_lt (x : Qc) (hi : Z) :
  (x < Qc_of_Z hi)%Qc -> Qc_floor x < hi.
Proof.
  unfold Qc_floor, Qclt, Qc_of_Z. simpl. intros Hhi.
  rewrite Qred_correct in Hhi.
  destruct (Z_lt_le_dec (Qfloor x) hi) as [|Hge]; [assumption|].
  exfalso. apply (Qlt_not_le _ _ Hhi).
  apply Qle_trans with (inject_Z (Qfloor x)).
  - rewrite <- Zle_Qle. exact Hge.
  - apply Qfloor_le.
Qed.

Lemma Qc_sum_between (lo hi : Qc) (xs : list Qc) :
  Forall (fun x => lo <= x /\ x <= hi)%Qc xs ->
  (lo * Qc_of_Z (Z.of_nat (length xs)) <= Qc_sum xs
   /\ Qc_sum xs <= hi * Qc_of_Z (Z.of_nat (length xs)))%Qc.
Proof.
  induction 1 as [|x xs [Hlo Hhi] _ [IHlo IHhi]].
  - simpl. change (Qc_of_Z 0) with 0%Qc.
    rewrite !Qcmult_0_r. split; apply Qcle_refl.
  - assert (E : Qc_of_Z (Z.of_nat (length (x :: xs)))
                = (Qc_of_Z (Z.of_nat (length xs)) + 1)%Qc).
    { unfold Qc_of_Z. apply Qc_is_canon. simpl length.
      rewrite Nat2Z.inj_succ. unfold Z.succ. rewrite inject_Z_plus.
      unfold Qcplus. simpl. rewrite !Qred_correct. reflexivity. }
    rewrite E. cbn [Qc_sum foldr]. fold (Qc_sum xs). split.
    + replace (lo * (Qc_of_Z (Z.of_nat (length xs)) + 1))%Qc
        with (lo + lo * Qc_of_Z (Z.of_nat (length xs)))%Qc by ring.
      apply Qcplus_le_compat; assumption.
    + replace (hi * (Qc_of_Z (Z.of_nat (length xs)) + 1))%Qc
        with (hi + hi * Qc_of_Z (Z.of_nat (length xs)))%Qc by ring.
      apply Qcplus_le_compat; assumption.
Qed.

Lemma Qc_of_nat_pos (n : nat) : (0 < n)%nat -> (0 < Qc_of_Z (Z.of_nat n))%Qc.
Proof.
  intros H. unfold Qclt.
  change (this (Qc_of_Z (Z.of_nat n))) with (Qred (inject_Z (Z.of_nat n))).
  change (this 0%Qc) with 0%Q. rewrite Qred_correct.
  unfold Qlt. simpl. lia.
Qed.

(** The mean of values between two bounds lies between them. *)
Lemma mean_skipna_between (lo hi : Qc) (xs : list Qc) (mu : Qc) :
  Forall (fun x => lo <= x /\ x <= hi)%Qc xs ->
  mean_skipna xs = Some mu -> (lo <= mu /\ mu <= hi)%Qc.
Proof.
  intros Hall Hmu. destruct xs as [|x xs]; [discriminate|].
  injection Hmu as <-.
  set (l := x :: xs) in *.
  assert (Hpos : (0 < Qc_of_Z (Z.of_nat (length l)))%Qc)
    by (apply Qc_of_nat_pos; simpl; lia).
  set (n := Qc_of_Z (Z.of_nat (length l))) in *.
  assert (Hn : n <> 0%Qc) by (intros E; rewrite E in Hpos; exact (Qclt_not_le _ _ Hpos (Qcle_refl _))).
  destruct (Qc_sum_between lo hi l Hall) as [Hlo Hhi]. fold n in Hlo, Hhi.
  assert (Hinv : (0 <= / n)%Qc).
  { apply Qclt_le_weak. apply Qcinv_pos. exact Hpos. }
  unfold Qcdiv. split.
  - replace lo with (lo * n * / n)%Qc by (field; exact Hn).
    apply Qcmult_le_compat_r; assumption.
  - replace hi with (hi * n * / n)%Qc by (field; exact Hn).
    apply Qcmult_le_compat_r; assumption.
Qed.

(** ** Frames *)

Lemma index_map_rows (f : Row -> Row) (df : DataFrame) :
  index (map_rows f df) = index df.
Proof. unfold index, map_rows. rewrite map_map. reflexivity. Qed.

Lemma records_map_rows (f : Row -> Row) (df : DataFrame) :
  records (map_rows f df) = map f (records df).
Proof. unfold records, map_rows. rewrite !map_map. reflexivity. Qed.

Lemma map_rows_id (df : DataFrame) : map_rows (fun r => r) df = df.
Proof. unfold map_rows. induction df as [|[i r] df IH]; simpl; [|rewrite IH]; reflexivity. Qed.

Lemma map_rows_map_rows (f g : Row -> Row) (df : DataFrame) :
  map_rows g (map_rows f df) = map_rows (fun r => g (f r)) df.
Proof. unfold map_rows. rewrite map_map. reflexivity. Qed.

Lemma map_rows_ext (f g : Row -> Row) (df : DataFrame) :
  (forall r, f r = g r) -> map_rows f df = map_rows g df.
Proof. intros H. unfold map_rows. apply map_ext. intros [i r]. simpl. rewrite H. reflexivity. Qed.

Lemma index_of_records (rs : list Row) : index (of_records rs) = seq 0 (length rs).
Proof.
  unfold index, of_records.
  change (map fst (combine (seq 0 (length rs)) rs)) with (fst <$> zip (seq 0 (length rs)) rs).
  apply fst_zip. rewrite length_seq. reflexivity.
Qed.

Lemma records_of_records (rs : list Row) : records (of_records rs) = rs.
Proof.
  unfold records, of_records.
  change (map snd (combine (seq 0 (length rs)) rs)) with (snd <$> zip (seq 0 (length rs)) rs).
  apply snd_zip. rewrite length_seq. reflexivity.
Qed.

Lemma combine_seq_map {A B} (f : A -> B) (l : list A) (k : nat) :
  combine (seq k (length (map f l))) (map f l)
  = map (fun ia => (fst ia, f (snd ia))) (combine (seq k (length l)) l).
Proof.
  revert k. induction l as [|a l IH]; intros k; simpl; [reflexivity|].
  f_equal. apply IH.
Qed.

Lemma of_records_map (f : Row -> Row) (rs : list Row) :
  of_records (map f rs) = map_rows f (of_records rs).
Proof. unfold of_records, map_rows. apply combine_seq_map. Qed.

Lemma combine_seq_lookup {A} (l : list A) (k i : nat) (a : A) :
  l !! i = Some a -> combine (seq k (length l)) l !! i = Some ((k + i)%nat, a).
Proof.
  revert k i. induction l as [|b l IH]; intros k [|i] H; simpl in *; try discriminate.
  - injection H as ->. f_equal. f_equal. lia.
  - rewrite (IH (S k) i H). f_equal. f_equal. lia.
Qed.

Lemma of_records_lookup (rs : list Row) (i : nat) (r : Row) :
  rs !! i = Some r -> of_records rs !! i = Some (i, r).
Proof. intros H. exact (combine_seq_lookup rs 0 i r H). Qed.

Lemma assign_series_of {A} (g : A -> Row -> Row) (h : Row -> A) (k : Row -> Row)
      (df : DataFrame) :
  assign g (series_of h df) (map_rows k df) = map_rows (fun r => g (h r) (k r)) df.
Proof.
  unfold assign, series_of, map_rows.
  induction df as [|[i r] df IH]; simpl; [reflexivity|].
  f_equal. exact IH.
Qed.

Lemma boolean_index_series_of (p : Row -> bool) (df : DataFrame) :
  boolean_index (series_of p df) df = where_rows p df.
Proof.
  unfold boolean_index, series_of, where_rows.
  induction df as [|[i r] df IH]; simpl; [reflexivity|].
  destruct (p r); simpl; rewrite IH; reflexivity.
Qed.

Lemma finite_values_all {df : DataFrame} (f : Row -> option Qc) (g : Row -> Qc) :
  Forall (fun ir => f (snd ir) = Some (g (snd ir))) df ->
  finite_values (series_of f df) = Some (series_of g df).
Proof.
  unfold series_of.
  induction 1 as [|[i r] df H _ IH]; simpl in *; [reflexivity|].
  rewrite H, IH. reflexivity.
Qed.

Lemma finite_values_missing (df : DataFrame) (f : Row -> option Qc) :
  Exists (fun ir => f (snd ir) = None) df ->
  finite_values (series_of f df) = None.
Proof.
  unfold series_of.
  induction 1 as [[i r] df H|[i r] df _ IH]; simpl in *.
  - rewrite H. reflexivity.
  - destruct (f r); [|reflexivity]. rewrite IH. reflexivity.
Qed.

(** ** Rows *)

Lemma nan_count_range (r : Row) : 0 <= nan_count r <= 5.
Proof.
  unfold nan_count, answers. simpl.
  destruct (isna (q1 r)), (isna (q2 r)), (isna (q3 r)), (isna (q4 r)), (isna (q5 r));
    simpl; lia.
Qed.

Section Properties.

Variable float_of_string : string -> option Qc.
Variable datetime_of : value -> option Z.

Local Abbreviation to_num := (to_numeric float_of_string).
Local Abbreviation coerced := (coerce_row float_of_string).

Lemma to_numeric_float (v : value) :
  to_num v = cell_of_float (float_cell (to_num v)).
Proof. destruct v; simpl; try reflexivity. destruct (float_of_string s); reflexivity. Qed.

Lemma to_numeric_idem (v : value) : to_num (to_num v) = to_num v.
Proof. destruct v; simpl; try reflexivity. destruct (float_of_string s); reflexivity. Qed.

Lemma to_numeric_isna (v : value) : isna v = true -> to_num v = NaN.
Proof. destruct v; simpl; intros; congruence. Qed.

Lemma apply_to_numeric_rows (df : DataFrame) :
  apply_to_numeric float_of_string df = map_rows coerced df.
Proof. reflexivity. Qed.

Lemma coerce_questions_rows (df : DataFrame) :
  coerce_questions float_of_string df = map_rows coerced df.
Proof.
  unfold coerce_questions, coerce_column. simpl.
  rewrite !map_rows_map_rows. apply map_rows_ext. intros r. reflexivity.
Qed.

(** In a coerced row a cell is a float or NaN, so the count of NaN and the
    count of present answers add up to five. *)
Lemma coerced_present (r : Row) :
  Z.of_nat (length (present (coerced r))) = 5 - nan_count (coerced r).
Proof.
  unfold present, nan_count, answers. simpl.
  rewrite (to_numeric_float (q1 r)), (to_numeric_float (q2 r)),
    (to_numeric_float (q3 r)), (to_numeric_float (q4 r)), (to_numeric_float (q5 r)).
  destruct (float_cell (to_num (q1 r))), (float_cell (to_num (q2 r))),
    (float_cell (to_num (q3 r))), (float_cell (to_num (q4 r))),
    (float_cell (to_num (q5 r))); reflexivity.
Qed.

Lemma row_mean_none (r : Row) :
  row_mean (coerced r) = None <-> nan_count (coerced r) = 5.
Proof.
  pose proof (coerced_present r) as H. unfold row_mean, mean_skipna.
  destruct (present (coerced r)) as [|x xs]; simpl length in H.
  - split; [lia | reflexivity].
  - split; [discriminate | lia].
Qed.

End Properties.

(** ** score_subjects *)

Lemma astype_uint8_nan (df : DataFrame) :
  Exists (fun ir => row_mean (snd ir) = None) df ->
  astype_uint8 (series_of row_mean df) = Raise IntCastingNaNError.
Proof.
  intros H. unfold astype_uint8. rewrite (finite_values_missing df row_mean H). reflexivity.
Qed.

Lemma astype_uint8_castable (df : DataFrame) :
  Forall (fun ir => castable (snd ir)) df ->
  astype_uint8 (series_of row_mean df)
  = Ok (series_of (fun r => uint8_of_float (default 0%Qc (row_mean r))) df).
Proof.
  intros H. unfold astype_uint8.
  rewrite (finite_values_all row_mean (fun r => default 0%Qc (row_mean r))).
  - replace (forallb _ _) with true; [unfold series_of; rewrite map_map; reflexivity|].
    symmetry. apply forallb_forall. intros [i x] Hin. simpl.
    unfold series_of in Hin. apply in_map_iff in Hin as ([j r] & E & Hin).
    injection E as -> <-. simpl.
    rewrite List.Forall_forall in H. destruct (H _ Hin) as (y & Hy & Hle). simpl in Hy.
    rewrite Hy. simpl. apply Qc_leb_le. exact Hle.
  - eapply Forall_impl; [exact H|]. intros [i r] (y & Hy & _). simpl in *.
    rewrite Hy. reflexivity.
Qed.

Lemma astype_uint8_ok_inv (df : DataFrame) (u8 : Series Z) :
  astype_uint8 (series_of row_mean df) = Ok u8 ->
  Forall (fun ir => castable (snd ir)) df.
Proof.
  unfold astype_uint8, series_of.
  induction df as [|[i r] df IH] in u8 |- *; intros H; [constructor|].
  simpl in H. destruct (row_mean r) as [x|] eqn:Ex; [|discriminate].
  destruct (finite_values _) as [xs|] eqn:Efin; [|discriminate].
  simpl in H. destruct (Qc_leb (Qc_of_Z 0) x) eqn:Ele; [|discriminate].
  destruct (forallb _ xs) eqn:Eall; [|discriminate].
  constructor.
  - exists x. split; [exact Ex | apply Qc_leb_le; exact Ele].
  - eapply IH. reflexivity.
Qed.

Section ScoreSubjects.

Variable float_of_string : string -> option Qc.

Local Abbreviation coerced := (coerce_row float_of_string).

Lemma score_subjects_run (m : Z) (df : DataFrame) :
  score_subjects float_of_string m (mkQA (Some df))
  = match astype_uint8 (series_of row_mean (map_rows coerced df)) with
    | Raise e => (Raise e, mkQA (Some (map_rows coerced df)))
    | Ok u8 =>
        let df' :=
          assign (fun n r => if m <? n then set_score None r else r)
                 (series_of nan_count (map_rows coerced df))
                 (assign set_score (astype_UInt8 u8) (map_rows coerced df)) in
        (Ok df', mkQA (Some df'))
    end.
Proof.
  unfold score_subjects, mbind, M_bind, get_data, set_data, raise, mret, M_ret.
  cbn beta iota delta [data].
  change (apply_to_numeric float_of_string df) with (map_rows coerced df).
  destruct (astype_uint8 _); reflexivity.
Qed.

Lemma score_subjects_castable (m : Z) (df : DataFrame) :
  Forall (fun ir => castable (coerced (snd ir))) df ->
  score_subjects float_of_string m (mkQA (Some df))
  = (Ok (map_rows (fun r => score_row m (coerced r)) df),
     mkQA (Some (map_rows (fun r => score_row m (coerced r)) df))).
Proof.
  intros H. rewrite score_subjects_run.
  set (df1 := map_rows coerced df).
  assert (H1 : Forall (fun ir => castable (snd ir)) df1).
  { unfold df1, map_rows. apply Forall_map. exact H. }
  rewrite (astype_uint8_castable df1 H1). cbv zeta.
  assert (E : assign (fun n r => if m <? n then set_score None r else r)
                (series_of nan_count df1)
                (assign set_score
                   (astype_UInt8 (series_of (fun r => uint8_of_float (default 0%Qc (row_mean r))) df1))
                   df1)
              = map_rows (fun r => score_row m (coerced r)) df).
  { unfold astype_UInt8, series_of at 2. rewrite map_map. simpl.
    change (map (fun x : nat * Row => (x.1, Some (uint8_of_float (default 0%Qc (row_mean x.2)))))
              df1)
      with (series_of (fun r => Some (uint8_of_float (default 0%Qc (row_mean r)))) df1).
    rewrite <- (map_rows_id df1) at 3.
    rewrite assign_series_of, assign_series_of.
    unfold df1. rewrite map_rows_map_rows.
    unfold map_rows. apply map_ext_in. intros [i r] Hin. simpl. f_equal.
    rewrite List.Forall_forall in H. destruct (H _ Hin) as (x & Hx & _). simpl in Hx.
    unfold score_row. rewrite Hx. reflexivity. }
  rewrite E. reflexivity.
Qed.

Lemma score_subjects_ok_inv (m : Z) (df df' : DataFrame) (self' : QuestionnaireAnalysis) :
  score_subjects float_of_string m (mkQA (Some df)) = (Ok df', self') ->
  Forall (fun ir => castable (coerced (snd ir))) df.
Proof.
  rewrite score_subjects_run.
  destruct (astype_uint8 _) as [u8|e] eqn:E; [|discriminate]. intros _.
  apply astype_uint8_ok_inv in E. unfold map_rows in E.
  rewrite Forall_map in E. exact E.
Qed.

Lemma uint8_of_float_floor (x : Qc) :
  (Qc_of_Z 0 <= x)%Qc -> (x < Qc_of_Z 256)%Qc -> uint8_of_float x = Qc_floor x.
Proof.
  intros H0 H256. unfold uint8_of_float. rewrite (Qc_trunc_floor x H0). cbv zeta.
  pose proof (Qc_floor_ge x 0 H0) as Hge.
  pose proof (Qc_floor_lt x 256 H256) as Hlt.
  destruct (Z.ltb_spec (Qc_floor x) (2 ^ 31)) as [_|Hbig]; [|lia].
  apply Z.mod_small. lia.
Qed.

Lemma uint8_of_float_range (x : Qc) : 0 <= uint8_of_float x < 256.
Proof.
  unfold uint8_of_float. cbv zeta.
  destruct (Qc_trunc x <? 2 ^ 31); [apply Z.mod_pos_bound|]; lia.
Qed.

(** C1 (the code departs from the claim).  A subject whose five answers
    are all missing gets no NA score: the mean column then holds NaN, the
    cast to uint8 raises IntCastingNaNError, and the call ends there with
    every row unscored (the question columns stay coerced). *)
Theorem score_subjects_all_missing_raises (m : Z) (rs : list Row) (r : Row) :
  In r rs ->
  nan_count (coerced r) = 5 ->
  score_subjects float_of_string m (loaded rs)
  = (Raise IntCastingNaNError, mkQA (Some (map_rows coerced (of_records rs)))).
Proof.
  intros Hin Hnan. unfold loaded. rewrite score_subjects_run.
  rewrite astype_uint8_nan; [reflexivity|].
  apply list_elem_of_In, list_elem_of_lookup in Hin as [i Hi].
  apply Exists_exists. exists (i, coerced r). split.
  - apply list_elem_of_lookup. exists i. unfold map_rows.
    rewrite list_lookup_fmap, (of_records_lookup rs i r Hi). reflexivity.
  - simpl. apply row_mean_none. exact Hnan.
Qed.


(** C9 (as amended).  Every score [score_subjects] assigns lies in
    [0,255], the range of the UInt8 column; there is no clamp to [0,100].
    For a subject whose answers lie in [0,100] the score lies in [0,100],
    and when those answers are whole numbers it is the floor of their
    mean. *)
Theorem score_subjects_uint8_range (m : Z) (df df' : DataFrame)
        (self' : QuestionnaireAnalysis) (k i : nat) (r : Row) :
  score_subjects float_of_string m (mkQA (Some df)) = (Ok df', self') ->
  df !! k = Some (i, r) ->
  exists r',
    df' !! k = Some (i, r')
    /\ forall n, score r' = Some (Some n) ->
       0 <= n < 256
       /\ (Forall (fun x => Qc_of_Z 0 <= x /\ x <= Qc_of_Z 100)%Qc (present (coerced r)) ->
           0 <= n <= 100
           /\ (whole_answers (coerced r) ->
               exists x, row_mean (coerced r) = Some x /\ n = Qc_floor x)).
Proof.
  intros Hrun Hk.
  pose proof (score_subjects_ok_inv m df df' self' Hrun) as Hall.
  rewrite (score_subjects_castable m df Hall) in Hrun.
  injection Hrun as <- _.
  exists (score_row m (coerced r)). split.
  - unfold map_rows. rewrite list_lookup_fmap, Hk. reflexivity.
  - rewrite List.Forall_forall in Hall.
    assert (Hin : In (i, r) df).
    { apply list_elem_of_In, list_elem_of_lookup. exists k. exact Hk. }
    destruct (Hall _ Hin) as (x & Hx & H0). simpl in Hx.
    unfold score_row. rewrite Hx. cbv zeta.
    intros n Hn.
    assert (En : n = uint8_of_float x).
    { destruct (m <? nan_count (coerced r)); simpl in Hn; congruence. }
    subst n. split.
    + apply uint8_of_float_range.
    + intros Hrange.
      destruct (mean_skipna_between _ _ _ x Hrange Hx) as [Hlo Hhi].
      assert (H256 : (x < Qc_of_Z 256)%Qc).
      { eapply Qcle_lt_trans; [exact Hhi|]. reflexivity. }
      rewrite (uint8_of_float_floor x H0 H256).
      split; [apply Qc_floor_between; assumption|].
      intros _. exists x. split; reflexivity.
Qed.

End ScoreSubjects.

Lemma score_subjects_all_missing_raises_witness :
  In silent_subject (three_subjects ++ [silent_subject])
  /\ nan_count (coerce_row no_float silent_subject) = 5
  /\ score_subjects no_float 1 (loaded (three_subjects ++ [silent_subject]))
     = (Raise IntCastingNaNError,
        mkQA (Some (map_rows (coerce_row no_float)
                             (of_records (three_subjects ++ [silent_subject]))))).
Proof.
  assert (Hin : In silent_subject (three_subjects ++ [silent_subject]))
    by (simpl; tauto).
  assert (Hnan : nan_count (coerce_row no_float silent_subject) = 5)
    by reflexivity.
  split; [exact Hin | split; [exact Hnan|]].
  exact (score_subjects_all_missing_raises no_float 1 _ silent_subject Hin Hnan).
Defined.




(** The three subjects of the specification's example, threshold 1:
    scores 30, 25 and pd.NA. *)
Example score_subjects_three_subjects :
  exists df',
    score_subjects no_float 1 (loaded three_subjects) = (Ok df', mkQA (Some df'))
    /\ map (fun ir => score (snd ir)) df' = [Some (Some 30); Some (Some 25); Some None].
Proof. eexists. split; vm_compute; reflexivity. Qed.

(** ** fill_na_with_mean *)

Lemma series_at_notin {A} (s : Series A) (i : nat) :
  ~ In i (index s) -> series_at s i = None.
Proof.
  induction s as [|[j a] s IH]; simpl; intros H; [reflexivity|].
  destruct (Nat.eqb_spec j i) as [->|Hne]; [tauto|].
  apply IH. tauto.
Qed.

Lemma series_at_in {A} (s : Series A) (i : nat) (a : A) :
  NoDup (index s) -> In (i, a) s -> series_at s i = Some a.
Proof.
  induction s as [|[j b] s IH]; simpl; intros Hnd Hin; [tauto|].
  apply NoDup_cons in Hnd as [Hj Hnd].
  destruct Hin as [E|Hin].
  - injection E as -> ->. rewrite Nat.eqb_refl. reflexivity.
  - destruct (Nat.eqb_spec j i) as [->|Hne]; [|apply IH; assumption].
    exfalso. apply Hj. apply list_elem_of_In.
    change i with (fst (i, a)). apply in_map. exact Hin.
Qed.

Lemma index_where_rows_incl (p : Row -> bool) (df : DataFrame) (i : nat) :
  In i (index (where_rows p df)) -> In i (index df).
Proof.
  unfold index, where_rows. intros H. apply in_map_iff in H as (ir & E & Hin).
  apply filter_In in Hin as [Hin _]. apply in_map_iff. exists ir. tauto.
Qed.

Lemma NoDup_index_where_rows (p : Row -> bool) (df : DataFrame) :
  NoDup (index df) -> NoDup (index (where_rows p df)).
Proof.
  induction df as [|[i r] df IH]; simpl; intros Hnd; [constructor|].
  apply NoDup_cons in Hnd as [Hi Hnd].
  destruct (p r); simpl; [|apply IH; exact Hnd].
  apply NoDup_cons. split; [|apply IH; exact Hnd].
  intros Hin. apply Hi. apply list_elem_of_In.
  apply (index_where_rows_incl p). apply list_elem_of_In. exact Hin.
Qed.

Lemma series_at_where_rows (p : Row -> bool) (df : DataFrame) (i : nat) (r : Row) :
  NoDup (index df) -> In (i, r) df ->
  series_at (where_rows p df) i = if p r then Some r else None.
Proof.
  intros Hnd Hin. destruct (p r) eqn:E.
  - apply series_at_in; [apply NoDup_index_where_rows; exact Hnd|].
    apply filter_In. split; [exact Hin | exact E].
  - apply series_at_notin. intros Hin'.
    unfold index, where_rows in Hin'. apply in_map_iff in Hin' as ([j r'] & Ej & Hin').
    simpl in Ej. subst j. apply filter_In in Hin' as [Hin' Hp]. simpl in Hp.
    assert (Some r' = Some r) as [= ->].
    { rewrite <- (series_at_in df i r' Hnd Hin'). apply series_at_in; assumption. }
    congruence.
Qed.

(** The loop visits every row of [todo] once and rewrites the rows of the
    frame that carry its label. *)
Lemma fill_loop_spec (g : Row -> value) (means : Series value) (todo acc : DataFrame) :
  (forall i r, In (i, r) todo -> series_at means i = Some (g r)) ->
  NoDup (index todo) ->
  fill_loop means todo acc
  = Ok (map (fun jr => match series_at todo (fst jr) with
                       | Some row => (fst jr, assign_filled row (g row) (snd jr))
                       | None => jr
                       end) acc).
Proof.
  revert acc. induction todo as [|[i row] todo IH]; intros acc Hmeans Hnd.
  - simpl. f_equal. symmetry. apply map_id.
  - cbn [fill_loop]. rewrite (Hmeans i row (or_introl eq_refl)).
    apply NoDup_cons in Hnd as [Hi Hnd].
    rewrite IH; [|intros j r Hin; apply Hmeans; right; exact Hin | exact Hnd].
    f_equal. unfold loc_update. rewrite map_map. apply map_ext. intros [j r].
    cbn [fst snd series_at].
    destruct (Nat.eqb_spec j i) as [->|Hne].
    + rewrite Nat.eqb_refl. cbn [fst snd].
      rewrite series_at_notin; [reflexivity|].
      intros Hin. apply Hi. apply list_elem_of_In. exact Hin.
    + destruct (Nat.eqb_spec i j) as [->|_]; [congruence|]. reflexivity.
Qed.

Lemma assign_filled_self (r : Row) :
  assign_filled r (cell_of_float (row_mean r)) r = impute_row r.
Proof. reflexivity. Qed.

Lemma any_missing_nan_count (r : Row) : any_missing r = true <-> 0 < nan_count r.
Proof.
  unfold any_missing, nan_count, answers. simpl.
  destruct (isna (q1 r)), (isna (q2 r)), (isna (q3 r)), (isna (q4 r)), (isna (q5 r));
    simpl; split; intros H; try reflexivity; try discriminate; lia.
Qed.

Lemma impute_row_complete (r : Row) : any_missing r = false -> impute_row r = r.
Proof.
  unfold any_missing, answers, impute_row, fillna. simpl.
  destruct r as [a t e g v1 v2 v3 v4 v5 s]; simpl.
  destruct (isna v1), (isna v2), (isna v3), (isna v4), (isna v5);
    simpl; intros H; try discriminate; reflexivity.
Qed.

Lemma fill_loop_frame (df : DataFrame) :
  NoDup (index df) ->
  fill_loop (series_of (fun r => cell_of_float (row_mean r)) df)
            (where_rows any_missing df) df
  = Ok (map_rows impute_row df).
Proof.
  intros Hnd.
  rewrite (fill_loop_spec (fun r => cell_of_float (row_mean r))).
  - f_equal. unfold map_rows. apply map_ext_in. intros [i r] Hin. cbn [fst snd].
    rewrite (series_at_where_rows any_missing df i r Hnd Hin).
    destruct (any_missing r) eqn:E.
    + rewrite assign_filled_self. reflexivity.
    + rewrite (impute_row_complete r E). reflexivity.
  - intros i r Hin. apply filter_In in Hin as [Hin _].
    apply (series_at_in (series_of (fun r => cell_of_float (row_mean r)) df) i).
    + unfold index, series_of. rewrite map_map. exact Hnd.
    + unfold series_of. apply in_map_iff. exists (i, r). split; [reflexivity | exact Hin].
  - apply NoDup_index_where_rows. exact Hnd.
Qed.

Lemma index_where_combine_ge (p : Row -> bool) (l : list Row) (k i : nat) :
  In i (index (where_rows p (combine (seq k (length l)) l))) -> (k <= i)%nat.
Proof.
  intros H. apply index_where_rows_incl in H.
  change (index (combine (seq k (length l)) l))
    with (fst <$> zip (seq k (length l)) l) in H.
  rewrite fst_zip in H by (rewrite length_seq; reflexivity).
  apply in_seq in H. lia.
Qed.

Lemma index_where_combine_sorted (p : Row -> bool) (l : list Row) (k : nat) :
  StronglySorted lt (index (where_rows p (combine (seq k (length l)) l))).
Proof.
  revert k. induction l as [|r l IH]; intros k; simpl; [constructor|].
  destruct (p r); simpl; [|apply IH].
  constructor; [apply IH|].
  apply List.Forall_forall. intros i Hi.
  apply index_where_combine_ge in Hi. lia.
Qed.

Section FillNa.

Variable float_of_string : string -> option Qc.

Local Abbreviation coerced := (coerce_row float_of_string).

Lemma fill_na_with_mean_run (df : DataFrame) :
  fill_na_with_mean float_of_string (mkQA (Some df))
  = match fill_loop (series_of (fun r => cell_of_float (row_mean r)) (map_rows coerced df))
                    (where_rows any_missing (map_rows coerced df))
                    (map_rows coerced df) with
    | Raise e => (Raise e, mkQA (Some (map_rows coerced df)))
    | Ok filled_df =>
        (Ok (filled_df, index (where_rows any_missing (map_rows coerced df))),
         mkQA (Some (map_rows coerced df)))
    end.
Proof.
  unfold fill_na_with_mean, mbind, M_bind, get_data, set_data, raise, mret, M_ret.
  cbn beta iota delta [data].
  rewrite coerce_questions_rows, boolean_index_series_of.
  destruct (fill_loop _ _ _); reflexivity.
Qed.

Lemma fill_na_with_mean_loaded (rs : list Row) :
  fill_na_with_mean float_of_string (loaded rs)
  = (Ok (of_records (map (fun r => impute_row (coerced r)) rs),
         index (where_rows any_missing (of_records (map coerced rs)))),
     mkQA (Some (of_records (map coerced rs)))).
Proof.
  unfold loaded. rewrite fill_na_with_mean_run.
  rewrite <- (of_records_map coerced rs).
  rewrite fill_loop_frame.
  - rewrite <- of_records_map, map_map. reflexivity.
  - rewrite index_of_records. apply NoDup_seq.
Qed.

(** What the index array holds: the labels, in dataset order, of the rows
    that have at least one missing answer once the answers are coerced,
    the rows with all five missing included. *)
Lemma fill_na_with_mean_rows (rs : list Row) :
  exists filled rows,
    fill_na_with_mean float_of_string (loaded rs)
    = (Ok (filled, rows), mkQA (Some (of_records (map coerced rs))))
    /\ rows = index (where_rows (fun r => any_missing (coerced r)) (of_records rs))
    /\ StronglySorted lt rows
    /\ (forall i, In i rows <-> exists r, rs !! i = Some r /\ 0 < nan_count (coerced r))
    /\ (forall i r, rs !! i = Some r -> nan_count (coerced r) = 5 ->
        In i rows /\ filled !! i = Some (i, coerced r)).
Proof.
  eexists _, _. split; [apply fill_na_with_mean_loaded|].
  assert (Erows : index (where_rows any_missing (of_records (map coerced rs)))
                  = index (where_rows (fun r => any_missing (coerced r)) (of_records rs))).
  { rewrite of_records_map. unfold where_rows, map_rows, index.
    generalize (of_records rs). intros df.
    induction df as [|[i r] df IH]; simpl; [reflexivity|].
    destruct (any_missing (coerced r)); simpl; rewrite IH; reflexivity. }
  assert (Hmem : forall i, In i (index (where_rows (fun r => any_missing (coerced r)) (of_records rs)))
                           <-> exists r, rs !! i = Some r /\ 0 < nan_count (coerced r)).
  { intros i. unfold index, where_rows. rewrite in_map_iff. split.
    - intros ([j r] & Ej & Hin). simpl in Ej. subst j.
      apply filter_In in Hin as [Hin Hp]. simpl in Hp.
      apply list_elem_of_In, list_elem_of_lookup in Hin as [k Hk].
      destruct (rs !! k) as [r0|] eqn:Erk.
      + rewrite (of_records_lookup rs k r0 Erk) in Hk. injection Hk as -> ->.
        exists r. split; [exact Erk | apply any_missing_nan_count; exact Hp].
      + apply lookup_lt_Some in Hk. apply lookup_ge_None in Erk.
        unfold of_records in Hk. rewrite length_combine, length_seq in Hk. lia.
    - intros (r & Hr & Hnan). exists (i, r). split; [reflexivity|].
      apply filter_In. split.
      + apply list_elem_of_In, list_elem_of_lookup. exists i. apply of_records_lookup. exact Hr.
      + simpl. apply any_missing_nan_count. exact Hnan. }
  split; [exact Erows | split; [|split]].
  - rewrite Erows. apply index_where_combine_sorted.
  - intros i. rewrite Erows. apply Hmem.
  - intros i r Hr Hnan. split.
    + rewrite Erows. apply Hmem. exists r. split; [exact Hr | lia].
    + rewrite of_records_map. unfold map_rows.
      rewrite list_lookup_fmap, (of_records_lookup rs i r Hr). cbn [fmap option_fmap option_map fst snd].
      f_equal. f_equal.
      apply row_mean_none in Hnan as Hmean.
      unfold impute_row. rewrite Hmean. cbn [cell_of_float].
      destruct (coerced r) as [a t e g v1 v2 v3 v4 v5 s]. unfold fillna. simpl.
      destruct v1, v2, v3, v4, v5; reflexivity.
Qed.

(** C5.  Imputation works row by row on the coerced answers: a row with no
    missing answer comes back as it is (unchanged altogether when its
    answers are numbers already), and in a row with [k] missing
    answers, [0 < k < 5], exactly those [k] cells are replaced, each by the
    arithmetic mean of the [5 - k] answers of that same row; the answers
    present, and every other field, keep their values. *)
Theorem fill_na_with_mean_row_mean (rs : list Row) (i : nat) (r : Row) :
  rs !! i = Some r ->
  exists filled rows r',
    fill_na_with_mean float_of_string (loaded rs)
    = (Ok (filled, rows), mkQA (Some (of_records (map coerced rs))))
    /\ filled !! i = Some (i, r')
    /\ (age r', timestamp r', email r', gender r', score r')
       = (age r, timestamp r, email r, gender r, score r)
    /\ (nan_count (coerced r) = 0 -> r' = coerced r)
    /\ (Forall (fun v => exists x, v = Num x) (answers r) -> r' = r)
    /\ (forall c, isna (get_q c (coerced r)) = false -> get_q c r' = get_q c (coerced r))
    /\ (0 < nan_count (coerced r) < 5 ->
        exists mu,
          mu = (Qc_sum (present (coerced r)) / Qc_of_Z (5 - nan_count (coerced r)))%Qc
          /\ Z.of_nat (length (present (coerced r))) = 5 - nan_count (coerced r)
          /\ Z.of_nat (length (List.filter (fun c => isna (get_q c (coerced r))) question_cols))
             = nan_count (coerced r)
          /\ forall c, isna (get_q c (coerced r)) = true -> get_q c r' = Num mu).
Proof.
  intros Hr. eexists _, _, (impute_row (coerced r)).
  split; [apply fill_na_with_mean_loaded|].
  split; [|split; [reflexivity|split; [|split; [|split]]]].
  - rewrite of_records_lookup with (r := impute_row (coerced r)); [reflexivity|].
    rewrite list_lookup_fmap, Hr. reflexivity.
  - intros H0. apply impute_row_complete.
    destruct (any_missing (coerced r)) eqn:E; [|reflexivity].
    apply any_missing_nan_count in E. lia.
  - intros Hnum. destruct r as [a t e g v1 v2 v3 v4 v5 s].
    unfold answers in Hnum. cbn [map question_cols get_q q1 q2 q3 q4 q5] in Hnum.
    repeat match goal with
           | H : Forall _ (_ :: _) |- _ =>
               apply List.Forall_cons_iff in H as [[? ->] H]
           end.
    reflexivity.
  - intros c Hc. unfold impute_row.
    destruct c; cbn [get_q q1 q2 q3 q4 q5] in *; unfold fillna; rewrite Hc; reflexivity.
  - intros Hk. pose proof (coerced_present float_of_string r) as Hlen.
    exists (Qc_sum (present (coerced r)) / Qc_of_Z (5 - nan_count (coerced r)))%Qc.
    split; [reflexivity|]. split; [exact Hlen|]. split.
    + unfold nan_count, answers. rewrite filter_map_swap, length_map. reflexivity.
    + intros c Hc.
      assert (Hmean : row_mean (coerced r)
                      = Some (Qc_sum (present (coerced r))
                              / Qc_of_Z (5 - nan_count (coerced r)))%Qc).
      { unfold row_mean, mean_skipna. rewrite <- Hlen.
        destruct (present (coerced r)) as [|x xs] eqn:E; [simpl in Hlen; lia|]. reflexivity. }
      unfold impute_row. rewrite Hmean.
      destruct c; cbn [get_q q1 q2 q3 q4 q5 cell_of_float] in *; unfold fillna; rewrite Hc; reflexivity.
Qed.

(** C10.  The imputed means go to the frame that is returned.  What the
    call does to [self.data] is the coercion of the question columns and
    nothing else, so an answer that was missing before the call is still
    missing in [self.data] after it. *)
Theorem fill_na_with_mean_shared (df : DataFrame) :
  snd (fill_na_with_mean float_of_string (mkQA (Some df)))
  = mkQA (Some (map_rows coerced df))
  /\ forall k i r, df !! k = Some (i, r) ->
     exists r', map_rows coerced df !! k = Some (i, r')
       /\ (age r', timestamp r', email r', gender r', score r')
          = (age r, timestamp r, email r, gender r, score r)
       /\ forall c, get_q c r' = to_numeric float_of_string (get_q c r)
                    /\ (isna (get_q c r) = true -> get_q c r' = NaN).
Proof.
  split.
  - rewrite fill_na_with_mean_run. destruct (fill_loop _ _ _); reflexivity.
  - intros k i r Hk. exists (coerced r). split.
    + unfold map_rows. rewrite list_lookup_fmap, Hk. reflexivity.
    + split; [reflexivity|]. intros c.
      assert (E : get_q c (coerced r) = to_numeric float_of_string (get_q c r))
        by (destruct c; reflexivity).
      split; [exact E|]. intros Hna. rewrite E. apply to_numeric_isna. exact Hna.
Qed.

End FillNa.

(** ** remove_rows_without_mail *)

Lemma split_pieces_count (c : ascii) (s : string) :
  length (snd (split_pieces c s)) = count_char c s.
Proof.
  induction s as [|a s IH]; simpl; [reflexivity|].
  destruct (split_pieces c s) as [p ps]. simpl in IH.
  destruct (Ascii.eqb a c); simpl; rewrite IH; reflexivity.
Qed.

Lemma split_pieces_none (c : ascii) (s : string) :
  count_char c s = O -> split_pieces c s = (s, []).
Proof.
  induction s as [|a s IH]; simpl; [reflexivity|].
  destruct (Ascii.eqb a c); [discriminate|].
  intros H. rewrite (IH H). reflexivity.
Qed.

Lemma split_pieces_one (c : ascii) (s : string) :
  count_char c s = 1%nat -> snd (split_pieces c s) = [after_first c s].
Proof.
  induction s as [|a s IH]; simpl; [discriminate|].
  destruct (Ascii.eqb a c).
  - intros H. injection H as H. rewrite (split_pieces_none c s H). reflexivity.
  - intros H. specialize (IH H). destruct (split_pieces c s) as [p ps]. exact IH.
Qed.

Lemma contains_startswith (c : ascii) (s : string) :
  contains c s = true ->
  match s with
  | String a _ => Ok (negb (Ascii.eqb a c))
  | EmptyString => Raise IndexError
  end = Ok (negb (startswith c s)).
Proof. destruct s; simpl; [discriminate | reflexivity]. Qed.

(** On a string the source predicate computes the rule of the
    specification, and never reaches the IndexError of [domain[0]]. *)
Lemma is_valid_email_Str (s : string) : is_valid_email (Str s) = Ok (email_ruleb s).
Proof.
  unfold is_valid_email, email_ruleb, split.
  pose proof (split_pieces_count at_sign s) as Hlen.
  destruct (Nat.eqb_spec (count_char at_sign s) 1) as [H1|H1].
  - pose proof (split_pieces_one at_sign s H1) as Hps.
    destruct (split_pieces at_sign s) as [p ps]. simpl in Hps. subst ps.
    destruct (contains dot (after_first at_sign s)) eqn:Hdot; simpl; [|reflexivity].
    destruct (startswith dot s); simpl; [reflexivity|].
    destruct (endswith dot s); simpl; [reflexivity|].
    apply contains_startswith. exact Hdot.
  - destruct (split_pieces at_sign s) as [p ps]. simpl in Hlen.
    destruct ps as [|d [|d' ps]]; simpl in *; try reflexivity.
    congruence.
Qed.

Lemma email_ruleb_rule (s : string) : email_ruleb s = true <-> email_rule s.
Proof.
  unfold email_ruleb, email_rule.
  rewrite !andb_true_iff, !negb_true_iff, Nat.eqb_eq. tauto.
Qed.

Lemma is_valid_email_cases (v : value) :
  is_valid_email v
  = if text_or_missing v
    then Ok (match v with Str s => email_ruleb s | _ => false end)
    else Raise AttributeError.
Proof. destruct v; try reflexivity. apply is_valid_email_Str. Qed.

Lemma series_apply_is_valid_email (df : DataFrame) :
  Forall (fun ir => text_or_missing (email (snd ir)) = true) df ->
  series_apply is_valid_email (series_of email df) = Ok (series_of survives df).
Proof.
  unfold series_of.
  induction 1 as [|[i r] df H _ IH]; simpl in *; [reflexivity|].
  rewrite is_valid_email_cases, H, IH. reflexivity.
Qed.

Lemma series_apply_is_valid_email_inv (df : DataFrame) (mask : Series bool) :
  series_apply is_valid_email (series_of email df) = Ok mask ->
  Forall (fun ir => text_or_missing (email (snd ir)) = true) df.
Proof.
  unfold series_of. revert mask.
  induction df as [|[i r] df IH]; intros mask H; [constructor|].
  simpl in H. rewrite is_valid_email_cases in H.
  destruct (text_or_missing (email r)) eqn:E; [|discriminate].
  destruct (series_apply _ _) as [bs|] eqn:Ebs; [|discriminate].
  constructor; [exact E | exact (IH bs eq_refl)].
Qed.

Lemma records_where_rows (p : Row -> bool) (df : DataFrame) :
  records (where_rows p df) = List.filter p (records df).
Proof.
  unfold records, where_rows.
  induction df as [|[i r] df IH]; simpl; [reflexivity|].
  destruct (p r); simpl; rewrite IH; reflexivity.
Qed.

Lemma filter_filter_same {A} (p : A -> bool) (l : list A) :
  List.filter p (List.filter p l) = List.filter p l.
Proof. apply forallb_filter_id. apply forallb_filter. Qed.

Lemma remove_rows_without_mail_run (df : DataFrame) :
  Forall (fun ir => text_or_missing (email (snd ir)) = true) df ->
  remove_rows_without_mail (mkQA (Some df))
  = (Ok (of_records (List.filter survives (records df))), mkQA (Some df)).
Proof.
  intros H.
  unfold remove_rows_without_mail, mbind, M_bind, get_data, raise, mret, M_ret.
  cbn beta iota delta [data].
  rewrite (series_apply_is_valid_email df H), boolean_index_series_of.
  unfold reset_index. rewrite records_where_rows. reflexivity.
Qed.

(** On a frame whose e-mail cells are strings or missing, the filter
    returns exactly the rows whose e-mail follows the rule (one [@], a dot
    in the part after it, no dot at either end of the address or at the
    start of the domain), in their input order and labelled from zero;
    [self.data] stays as it was. *)
Lemma remove_rows_without_mail_survivors (df : DataFrame) :
  Forall (fun ir => text_or_missing (email (snd ir)) = true) df ->
  exists out,
    remove_rows_without_mail (mkQA (Some df)) = (Ok out, mkQA (Some df))
    /\ records out = List.filter survives (records df)
    /\ index out = seq 0 (length out)
    /\ forall r, survives r = true <-> exists s, email r = Str s /\ email_rule s.
Proof.
  intros H. exists (of_records (List.filter survives (records df))).
  split; [apply remove_rows_without_mail_run; exact H|].
  split; [apply records_of_records|]. split.
  - rewrite index_of_records. f_equal.
    rewrite <- (records_of_records (List.filter survives (records df))) at 1.
    unfold records. rewrite length_map. reflexivity.
  - intros r. unfold survives. destruct (email r) as [|x|s|t].
    + split; [discriminate | intros (s & E & _); discriminate].
    + split; [discriminate | intros (s & E & _); discriminate].
    + rewrite email_ruleb_rule. split.
      * intros Hs. exists s. split; [reflexivity | exact Hs].
      * intros (s' & E & Hs). injection E as ->. exact Hs.
    + split; [discriminate | intros (s & E & _); discriminate].
Qed.

(** C7.  The filter is idempotent: run on its own output, it returns that
    output again. *)
Theorem remove_rows_without_mail_idempotent
        (self self' : QuestionnaireAnalysis) (out : DataFrame) :
  remove_rows_without_mail self = (Ok out, self') ->
  remove_rows_without_mail (mkQA (Some out)) = (Ok out, mkQA (Some out)).
Proof.
  destruct self as [[df|]]; [|discriminate].
  intros Hrun.
  assert (Htxt : Forall (fun ir => text_or_missing (email (snd ir)) = true) df).
  { revert Hrun.
    unfold remove_rows_without_mail, mbind, M_bind, get_data, raise, mret, M_ret.
    cbn beta iota delta [data].
    destruct (series_apply _ _) as [mask|] eqn:E; [|discriminate].
    intros _. exact (series_apply_is_valid_email_inv df mask E). }
  rewrite (remove_rows_without_mail_run df Htxt) in Hrun.
  injection Hrun as <- _.
  set (l := List.filter survives (records df)).
  rewrite remove_rows_without_mail_run.
  - rewrite records_of_records. unfold l. rewrite filter_filter_same. reflexivity.
  - apply List.Forall_forall. intros [i r] Hin. simpl.
    apply (in_map snd) in Hin. fold (records (of_records l)) in Hin.
    rewrite records_of_records in Hin. apply filter_In in Hin as [_ Hs].
    unfold survives in Hs. simpl in Hs.
    destruct (email r); try discriminate Hs. reflexivity.
Qed.

(** ** clean_data *)

Lemma where_rows_map_rows (p : Row -> bool) (f : Row -> Row) (df : DataFrame) :
  where_rows p (map_rows f df) = map_rows f (where_rows (fun r => p (f r)) df).
Proof.
  unfold where_rows, map_rows.
  induction df as [|[i r] df IH]; simpl; [reflexivity|].
  destruct (p (f r)); simpl; rewrite IH; reflexivity.
Qed.

Lemma where_rows_where_rows (p q : Row -> bool) (df : DataFrame) :
  where_rows p (where_rows q df) = where_rows (fun r => q r && p r) df.
Proof.
  unfold where_rows.
  induction df as [|[i r] df IH]; simpl; [reflexivity|].
  destruct (q r); simpl; [destruct (p r)|]; simpl; rewrite IH; reflexivity.
Qed.

Lemma where_rows_ext (p q : Row -> bool) (df : DataFrame) :
  (forall r, p r = q r) -> where_rows p df = where_rows q df.
Proof. intros H. unfold where_rows. apply filter_ext. intros [i r]. apply H. Qed.

Lemma contains_count (c : ascii) (s : string) :
  contains c s = true <-> (1 <= count_char c s)%nat.
Proof.
  induction s as [|a s IH]; simpl.
  - split; [discriminate | lia].
  - destruct (Ascii.eqb a c); simpl; [split; [lia | reflexivity] | exact IH].
Qed.

Section CleanData.

Variable float_of_string : string -> option Qc.
Variable datetime_of : value -> option Z.
Variable tz_aware : value -> bool.

Local Abbreviation to_num := (to_numeric float_of_string).
Local Abbreviation clean := (clean_data float_of_string datetime_of).
Local Abbreviation kept := (keeps float_of_string datetime_of).
Local Abbreviation cleaned := (clean_row float_of_string datetime_of).

Lemma clean_data_run (now : Z) (data : DataFrame) :
  clean now data = map_rows cleaned (where_rows (kept now) data).
Proof.
  unfold clean_data. cbv zeta. rewrite coerce_questions_rows. unfold coerce_age.
  repeat (rewrite ?where_rows_map_rows, ?map_rows_map_rows, ?where_rows_where_rows).
  rewrite (where_rows_ext _ (kept now)).
  - apply map_rows_ext. intros r. reflexivity.
  - intros r. unfold keeps. rewrite !andb_assoc. reflexivity.
Qed.

(** The frame [clean_data] returns: exactly the rows, in input order and
    under their labels, whose age coerces to a number that is not
    negative, whose timestamp converts to a time not after [now], whose
    e-mail is a string with at least one [@] and a dot after the last
    [@], and whose gender is one of the four, with age and answers
    coerced.  The answers play no part in the choice. *)
Lemma clean_data_invariant (now : Z) (data : DataFrame) :
  clean now data = map_rows cleaned (where_rows (kept now) data)
  /\ Forall (fun ir =>
       (exists x, age (snd ir) = Num x /\ (Qc_of_Z 0 <= x)%Qc)
       /\ (exists t, timestamp (snd ir) = Timestamp t /\ t <= now)
       /\ (exists g, gender (snd ir) = Str g /\ In g valid_genders)
       /\ (exists s, email (snd ir) = Str s
                    /\ (1 <= count_char at_sign s)%nat
                    /\ contains dot (last_piece at_sign s) = true)
       /\ forall c, get_q c (snd ir) = cell_of_float (float_cell (get_q c (snd ir))))
     (clean now data)
  /\ forall c v, index (clean now (map_rows (set_q c v) data)) = index (clean now data).
Proof.
  split; [apply clean_data_run|]. split.
  - rewrite clean_data_run. unfold map_rows. apply Forall_map.
    apply List.Forall_forall. intros [i r] Hin. cbn [snd fst].
    apply filter_In in Hin as [_ Hk]. cbn [snd] in Hk. unfold keeps in Hk.
    apply andb_true_iff in Hk as [Hk Hg]. apply andb_true_iff in Hk as [Hk He].
    apply andb_true_iff in Hk as [Ha Ht].
    split; [|split; [|split; [|split]]].
    + unfold age_ok in Ha. cbn [age set_age clean_row] in *.
      destruct (to_num (age r)) as [|x| |]; try discriminate.
      exists x. split; [reflexivity | apply Qc_leb_le; exact Ha].
    + unfold timestamp_ok in Ht. cbn [timestamp set_timestamp clean_row] in *.
      destruct (to_datetime datetime_of (timestamp r)) as [| | |t]; try discriminate.
      exists t. split; [reflexivity | apply Z.leb_le; exact Ht].
    + cbn [gender clean_row]. unfold clean_gender in *.
      destruct (gender r) as [| |g|]; try discriminate.
      destruct (bool_decide (g ∈ valid_genders)) eqn:E; [|discriminate].
      exists g. split; [reflexivity|].
      apply bool_decide_eq_true_1 in E. apply list_elem_of_In. exact E.
    + cbn [email clean_row]. unfold clean_email in *.
      destruct (email r) as [| |s|]; try discriminate.
      destruct (contains at_sign s) eqn:Eat; [|discriminate].
      destruct (contains dot (last_piece at_sign s)) eqn:Edot; [|discriminate].
      exists s. split; [reflexivity|]. split; [apply contains_count; exact Eat | exact Edot].
    + intros c. destruct c; cbn [get_q q1 q2 q3 q4 q5 clean_row]; apply to_numeric_float.
  - intros c v. rewrite !clean_data_run, !index_map_rows.
    rewrite where_rows_map_rows. rewrite index_map_rows.
    f_equal. apply where_rows_ext. intros r. destruct c; reflexivity.
Qed.

(** The time zone test of line 57 sees the rows the age filter kept. *)
Lemma tz_aware_after_age_filter (data : DataFrame) :
  existsb (fun ir => tz_aware (timestamp (snd ir)))
          (where_rows age_ok (coerce_age float_of_string data))
  = existsb (fun ir => age_ok (set_age (to_num (age (snd ir))) (snd ir))
                       && tz_aware (timestamp (snd ir))) data.
Proof.
  unfold coerce_age, where_rows, map_rows.
  induction data as [|[i r] data IH]; [reflexivity|].
  cbn [map List.filter existsb fst snd].
  destruct (age_ok (set_age (to_num (age r)) r)); cbn [existsb andb fst snd];
    rewrite IH; reflexivity.
Qed.

(** C3 (as amended).  A call of [clean_data] raises TypeError when a row
    that passed the age filter carries a time-zone-aware timestamp.
    Otherwise it returns exactly the rows, in input order and under their
    labels, whose age coerces to a number that is not negative, whose
    timestamp converts to a time not after [now], whose e-mail is a string
    with at least one [@] and a dot after the last [@], and whose gender
    is one of the four; every row of a returned frame satisfies these,
    with age and answers coerced.  The answers play no part in the
    outcome. *)
Theorem clean_data_call_invariant (now : Z) (data : DataFrame) :
  clean_data_call float_of_string datetime_of tz_aware now data
  = (if existsb (fun ir => age_ok (set_age (to_num (age (snd ir))) (snd ir))
                           && tz_aware (timestamp (snd ir))) data
     then Raise TypeError
     else Ok (map_rows cleaned (where_rows (kept now) data)))
  /\ (forall df,
        clean_data_call float_of_string datetime_of tz_aware now data = Ok df ->
        Forall (fun ir =>
          (exists x, age (snd ir) = Num x /\ (Qc_of_Z 0 <= x)%Qc)
          /\ (exists t, timestamp (snd ir) = Timestamp t /\ t <= now)
          /\ (exists g, gender (snd ir) = Str g /\ In g valid_genders)
          /\ (exists s, email (snd ir) = Str s
                       /\ (1 <= count_char at_sign s)%nat
                       /\ contains dot (last_piece at_sign s) = true)
          /\ forall c, get_q c (snd ir) = cell_of_float (float_cell (get_q c (snd ir))))
          df)
  /\ forall c v,
       match clean_data_call float_of_string datetime_of tz_aware now
               (map_rows (set_q c v) data),
             clean_data_call float_of_string datetime_of tz_aware now data with
       | Ok a, Ok b => index a = index b
       | Raise e, Raise e' => e = e'
       | _, _ => False
       end.
Proof.
  destruct (clean_data_invariant now data) as (Hrun & Hinv & Hq).
  assert (Hcall : forall d,
             clean_data_call float_of_string datetime_of tz_aware now d
             = if existsb (fun ir => age_ok (set_age (to_num (age (snd ir))) (snd ir))
                                     && tz_aware (timestamp (snd ir))) d
               then Raise TypeError else Ok (clean now d)).
  { intros d. unfold clean_data_call. cbv zeta.
    rewrite tz_aware_after_age_filter. reflexivity. }
  split; [rewrite Hcall, Hrun; reflexivity|]. split.
  - intros df. rewrite Hcall. destruct (existsb _ data); [discriminate|].
    intros [= <-]. exact Hinv.
  - intros c v. rewrite !Hcall.
    assert (E : existsb (fun ir => age_ok (set_age (to_num (age (snd ir))) (snd ir))
                                   && tz_aware (timestamp (snd ir)))
                        (map_rows (set_q c v) data)
                = existsb (fun ir => age_ok (set_age (to_num (age (snd ir))) (snd ir))
                                     && tz_aware (timestamp (snd ir))) data).
    { clear Hrun Hinv Hq. unfold map_rows.
      induction data as [|[i r] d IH]; [reflexivity|].
      cbn [map existsb fst snd]. rewrite IH. destruct c; reflexivity. }
    rewrite E. destruct (existsb _ data); [reflexivity | apply Hq].
Qed.

End CleanData.

(** ** correlate_gender_age *)

Lemma groupby_lookup (keyed : list (value * bool * Row)) (k : value * bool) :
  groupby keyed !! k
  = match List.filter (fun kr => negb (isna (fst (fst kr))) && bool_decide (fst kr = k)) keyed with
    | [] => None
    | members => Some (map snd members)
    end.
Proof.
  induction keyed as [|[k' r] keyed IH]; [reflexivity|].
  cbn [groupby foldr List.filter fst snd]. fold (groupby keyed).
  destruct (isna (fst k')) eqn:Ena; cbn [negb andb]; [exact IH|].
  rewrite lookup_insert. destruct (decide (k' = k)) as [->|Hne].
  - rewrite bool_decide_eq_true_2 by reflexivity. rewrite IH.
    destruct (List.filter _ keyed); reflexivity.
  - rewrite bool_decide_eq_false_2 by exact Hne. exact IH.
Qed.

Lemma group_members (g : value) (b : bool) (df : DataFrame) :
  isna g = false ->
  map snd (List.filter (fun kr => negb (isna (fst (fst kr))) && bool_decide (fst kr = (g, b)))
             (set_index_gender_age (where_rows (fun r => notna (age r)) df)))
  = List.filter (in_group g b) (records df).
Proof.
  intros Hg. unfold set_index_gender_age, where_rows, records, in_group.
  induction df as [|[i r] df IH]; [reflexivity|].
  cbn [List.filter map fst snd].
  destruct (notna (age r)) eqn:Eage; cbn [map List.filter fst snd andb]; [|exact IH].
  destruct (decide (gender r = g)) as [Eg|Eg].
  - subst g. rewrite Hg.
    rewrite (bool_decide_eq_true_2 (gender r = gender r) eq_refl). cbn [negb andb].
    destruct (Bool.eqb (age_above_40 (age r)) b) eqn:Eb.
    + apply Bool.eqb_prop in Eb. subst b.
      rewrite bool_decide_eq_true_2 by reflexivity. cbn [map snd].
      rewrite IH. reflexivity.
    + rewrite bool_decide_eq_false_2; [exact IH|].
      intros [= E]. rewrite E in Eb. destruct b; discriminate.
  - rewrite (bool_decide_eq_false_2 _ Eg). cbn [andb].
    rewrite bool_decide_eq_false_2 by congruence.
    rewrite andb_false_r. exact IH.
Qed.

Lemma group_missing_gender (g : value) (b : bool) (keyed : list (value * bool * Row)) :
  isna g = true ->
  List.filter (fun kr => negb (isna (fst (fst kr))) && bool_decide (fst kr = (g, b))) keyed = [].
Proof.
  intros Hg. induction keyed as [|[[g' b'] r] keyed IH]; [reflexivity|].
  cbn [List.filter fst snd].
  destruct (decide ((g', b') = (g, b))) as [[= -> ->]|Hne].
  - rewrite Hg. exact IH.
  - rewrite (bool_decide_eq_false_2 _ Hne), andb_false_r. exact IH.
Qed.

Section Correlate.

Variable float_of_string : string -> option Qc.

(** The frame [self.data] holds once answers and age are coerced. *)
Local Abbreviation numeric df := (coerce_age float_of_string (apply_to_numeric float_of_string df)).

Lemma correlate_gender_age_run (df : DataFrame) :
  correlate_gender_age float_of_string (mkQA (Some df))
  = (Ok (group_means <$>
           groupby (set_index_gender_age (where_rows (fun r => notna (age r)) (numeric df)))),
     mkQA (Some (numeric df))).
Proof. reflexivity. Qed.

Lemma correlate_gender_age_lookup (df : DataFrame) (g : value) (b : bool) :
  (group_means <$>
     groupby (set_index_gender_age (where_rows (fun r => notna (age r)) (numeric df))))
    !! (g, b)
  = if isna g then None
    else match List.filter (in_group g b) (records (numeric df)) with
         | [] => None
         | members => Some (group_means members)
         end.
Proof.
  rewrite lookup_fmap, groupby_lookup.
  destruct (isna g) eqn:Hg.
  - rewrite (group_missing_gender g b _ Hg). reflexivity.
  - rewrite <- (group_members g b (numeric df) Hg).
    destruct (List.filter _ (set_index_gender_age _)); reflexivity.
Qed.

(** C8 (as amended).  Rows without a numeric age are left out, and so are
    rows whose gender is missing; the others are grouped under
    (gender, age > 40).  A label is in the table exactly when some such row
    carries it, and its entry holds, for each question, the mean of the
    answers the group's rows have in that column (NaN when they have
    none).  A man of 45 with q1 = 80 and a man of 20 with q1 = 60 give two
    groups, with q1 means 80 and 60. *)
Theorem correlate_gender_age_groups :
  (forall df : DataFrame,
     exists table : gmap (value * bool) (list value),
       correlate_gender_age float_of_string (mkQA (Some df))
       = (Ok table, mkQA (Some (numeric df)))
       /\ forall g b,
           table !! (g, b)
           = if isna g then None
             else match List.filter (in_group g b) (records (numeric df)) with
                  | [] => None
                  | members =>
                      Some (map (fun col =>
                                   cell_of_float
                                     (mean_skipna
                                        (omap (fun r => float_cell (get_q col r)) members)))
                                question_cols)
                  end)
  /\ (exists table : gmap (value * bool) (list value),
        fst (correlate_gender_age float_of_string (loaded [male 45 80; male 20 60]))
        = Ok table
        /\ table !! (Str "Male", true) = Some [Int 80; NaN; NaN; NaN; NaN]
        /\ table !! (Str "Male", false) = Some [Int 60; NaN; NaN; NaN; NaN]
        /\ size table = 2%nat).
Proof.
  split.
  - intros df. eexists. split; [apply correlate_gender_age_run|].
    intros g b. apply correlate_gender_age_lookup.
  - eexists. split; [reflexivity|].
    split; [|split].
    + rewrite correlate_gender_age_lookup. vm_compute. reflexivity.
    + rewrite correlate_gender_age_lookup. vm_compute. reflexivity.
    + vm_compute. reflexivity.
Qed.

End Correlate.

(** ** The statements at concrete data *)


(** C9, the claim as worded fails: five answers of 200 get the score 200,
    which is above 100. *)
Lemma score_subjects_no_clamp :
  exists df' r',
    score_subjects no_float 1 (loaded [loud_subject]) = (Ok df', mkQA (Some df'))
    /\ df' !! 0%nat = Some (0%nat, r')
    /\ score r' = Some (Some 200)
    /\ ~ (forall n, score r' = Some (Some n) -> 0 <= n <= 100).
Proof.
  eexists _, _. split; [vm_compute; reflexivity|].
  split; [reflexivity|]. split; [reflexivity|].
  intros H. specialize (H 200 eq_refl). lia.
Qed.

Lemma score_subjects_uint8_range_witness :
  exists r',
    three_subjects_scored !! 1%nat = Some (1%nat, r')
    /\ forall n, score r' = Some (Some n) -> 0 <= n <= 100.
Proof.
  assert (Hrun : score_subjects no_float 1 (mkQA (Some (of_records three_subjects)))
                 = (Ok three_subjects_scored, mkQA (Some three_subjects_scored)))
    by (vm_compute; reflexivity).
  assert (Hrow : of_records three_subjects !! 1%nat
                 = Some (1%nat, subject (Int 10) (Int 20) (Int 30) (Int 40) NaN))
    by reflexivity.
  destruct (score_subjects_uint8_range no_float 1 _ _ _ 1%nat 1%nat _ Hrun Hrow)
    as (r' & Hlk & Hscore).
  exists r'. split; [exact Hlk|].
  intros n Hn. destruct (Hscore n Hn) as [_ Hrange].
  apply Hrange.
  repeat constructor; apply Qc_leb_le; vm_compute; reflexivity.
Defined.

(** C3, the claim as worded fails: an address with two [@] passes the
    cleaner. *)
Lemma clean_data_call_keeps_two_at_signs :
  exists r,
    clean_data_call no_float no_datetime no_tz 1 (of_records [two_at_signs])
    = Ok [(0%nat, r)]
    /\ email r = Str "a@b@c.d"
    /\ count_char at_sign "a@b@c.d" = 2%nat.
Proof. eexists. split; [vm_compute; reflexivity|]. split; reflexivity. Qed.

(** C4 (the code departs from the claim).  A subject with all five
    answers missing is listed in the index array although no grade was
    generated for it: its row comes back with all five still missing. *)
Lemma fill_na_with_mean_lists_silent_subject :
  fst (fill_na_with_mean no_float (loaded [silent_subject]))
  = Ok ([(0%nat, silent_subject)], [0%nat])
  /\ Forall (fun v => isna v = true) (answers silent_subject).
Proof. split; [vm_compute; reflexivity|]. repeat constructor. Qed.

Lemma fill_na_with_mean_row_mean_witness :
  mixed_subjects !! 1%nat = Some partial_subject
  /\ exists filled rows r',
      fst (fill_na_with_mean no_float (loaded mixed_subjects)) = Ok (filled, rows)
      /\ filled !! 1%nat = Some (1%nat, r')
      /\ q1 r' = Int 1 /\ q2 r' = Int 2 /\ q5 r' = Int 4
      /\ q3 r' = Num (Q2Qc (7 # 3)) /\ q4 r' = Num (Q2Qc (7 # 3)).
Proof.
  assert (Hrow : mixed_subjects !! 1%nat = Some partial_subject) by reflexivity.
  split; [exact Hrow|].
  destruct (fill_na_with_mean_row_mean no_float mixed_subjects 1%nat partial_subject Hrow)
    as (filled & rows & r' & Hrun & Hlk & _ & _ & _ & Hkeep & Hfill).
  exists filled, rows, r'. split; [rewrite Hrun; reflexivity|]. split; [exact Hlk|].
  destruct Hfill as (mu & Hmu & _ & _ & Hcells); [vm_compute; split; reflexivity|].
  assert (Emu : mu = Q2Qc (7 # 3)) by (subst mu; apply Qc_is_canon; reflexivity).
  subst mu.
  split; [exact (Hkeep Cq1 eq_refl)|]. split; [exact (Hkeep Cq2 eq_refl)|].
  split; [exact (Hkeep Cq5 eq_refl)|].
  split; [rewrite <- Emu; exact (Hcells Cq3 eq_refl) | rewrite <- Emu; exact (Hcells Cq4 eq_refl)].
Defined.

Lemma mail_frame_text : Forall (fun ir => text_or_missing (email (snd ir)) = true) mail_frame.
Proof. repeat constructor. Defined.

Lemma remove_rows_without_mail_survivors_witness :
  Forall (fun ir => text_or_missing (email (snd ir)) = true) mail_frame
  /\ exists out,
      remove_rows_without_mail (mkQA (Some mail_frame)) = (Ok out, mkQA (Some mail_frame))
      /\ records out = [ person (Int 30) NaN (Str "a@b.c") "Male";
                         person (Int 30) NaN (Str "d@e.f") "Other" ]
      /\ index out = [0%nat; 1%nat].
Proof.
  split; [exact mail_frame_text|].
  destruct (remove_rows_without_mail_survivors mail_frame mail_frame_text)
    as (out & Hrun & Hrec & Hidx & _).
  exists out. split; [exact Hrun|].
  assert (Hout : records out = [ person (Int 30) NaN (Str "a@b.c") "Male";
                                 person (Int 30) NaN (Str "d@e.f") "Other" ])
    by (rewrite Hrec; reflexivity).
  split; [exact Hout|].
  rewrite Hidx. rewrite <- (length_map snd out). fold (records out).
  rewrite Hout. reflexivity.
Defined.

(** The filter on the sample frame: two of the six rows survive. *)
Example remove_rows_without_mail_mail_frame :
  remove_rows_without_mail (mkQA (Some mail_frame))
  = (Ok mail_frame_filtered, mkQA (Some mail_frame)).
Proof. vm_compute. reflexivity. Qed.

Lemma remove_rows_without_mail_idempotent_witness :
  remove_rows_without_mail (mkQA (Some mail_frame))
  = (Ok mail_frame_filtered, mkQA (Some mail_frame))
  /\ remove_rows_without_mail (mkQA (Some mail_frame_filtered))
     = (Ok mail_frame_filtered, mkQA (Some mail_frame_filtered)).
Proof.
  assert (Hrun : remove_rows_without_mail (mkQA (Some mail_frame))
                 = (Ok mail_frame_filtered, mkQA (Some mail_frame)))
    by (vm_compute; reflexivity).
  split; [exact Hrun|].
  exact (remove_rows_without_mail_idempotent _ _ _ Hrun).
Defined.

(** C8, the claim as worded fails: a subject with an age but no gender is
    not excluded for its age, yet no group holds it and the table is
    empty. *)
Lemma correlate_gender_age_drops_missing_gender :
  notna (age genderless) = true
  /\ exists table : gmap (value * bool) (list value),
      fst (correlate_gender_age no_float (loaded [genderless])) = Ok table
      /\ table !! (gender genderless, age_above_40 (age genderless)) = None
      /\ size table = 0%nat.
Proof.
  split; [reflexivity|]. eexists. split; [reflexivity|].
  split; vm_compute; reflexivity.
Qed.

(** ** show_age_distrib *)

Lemma Qc_lt_of_Z (x : Qc) (h : Z) :
  (x < Qc_of_Z h)%Qc <-> Qnum x < h * Zpos (Qden x).
Proof.
  unfold Qclt, Qc_of_Z. cbn [this Q2Qc]. rewrite Qred_correct.
  unfold Qlt. cbn [Qnum Qden inject_Z]. lia.
Qed.

Lemma Qc_gt_of_Z (x : Qc) (k : Z) :
  (Qc_of_Z k < x)%Qc <-> k * Zpos (Qden x) < Qnum x.
Proof.
  unfold Qclt, Qc_of_Z. cbn [this Q2Qc]. rewrite Qred_correct.
  unfold Qlt. cbn [Qnum Qden inject_Z]. lia.
Qed.

Lemma Qc_ge_of_Z (x : Qc) (k : Z) :
  (Qc_of_Z k <= x)%Qc <-> k * Zpos (Qden x) <= Qnum x.
Proof.
  unfold Qcle, Qc_of_Z. cbn [this Q2Qc]. rewrite Qred_correct.
  unfold Qle. cbn [Qnum Qden inject_Z]. lia.
Qed.

(** Truncating division by a positive number, against integer bounds. *)
Lemma quot_lt_pos (n d h : Z) : 0 < d -> 1 <= h -> (n ÷ d < h <-> n < h * d).
Proof.
  intros Hd Hh. destruct (Z_le_gt_dec 0 n) as [Hn|Hn].
  - rewrite Z.quot_div_nonneg by lia.
    pose proof (Z.div_mod n d ltac:(lia)). pose proof (Z.mod_pos_bound n d Hd). nia.
  - replace n with (- (- n)) by lia. rewrite Z.quot_opp_l by lia.
    rewrite Z.quot_div_nonneg by lia.
    pose proof (Z.div_mod (- n) d ltac:(lia)). pose proof (Z.mod_pos_bound (- n) d Hd). nia.
Qed.

Lemma quot_ge_pos (n d k : Z) : 0 < d -> 1 <= k -> (k <= n ÷ d <-> k * d <= n).
Proof.
  intros Hd Hk. destruct (Z_le_gt_dec 0 n) as [Hn|Hn].
  - rewrite Z.quot_div_nonneg by lia.
    pose proof (Z.div_mod n d ltac:(lia)). pose proof (Z.mod_pos_bound n d Hd). nia.
  - replace n with (- (- n)) by lia. rewrite Z.quot_opp_l by lia.
    rewrite Z.quot_div_nonneg by lia.
    pose proof (Z.div_mod (- n) d ltac:(lia)). pose proof (Z.mod_pos_bound (- n) d Hd). nia.
Qed.

Lemma quot_nonneg_pos (n d : Z) : 0 < d -> (0 <= n ÷ d <-> - d < n).
Proof.
  intros Hd. destruct (Z_le_gt_dec 0 n) as [Hn|Hn].
  - rewrite Z.quot_div_nonneg by lia.
    pose proof (Z.div_pos n d Hn Hd). lia.
  - replace n with (- (- n)) by lia. rewrite Z.quot_opp_l by lia.
    rewrite Z.quot_div_nonneg by lia.
    pose proof (Z.div_mod (- n) d ltac:(lia)). pose proof (Z.mod_pos_bound (- n) d Hd). nia.
Qed.

(** A cast that lands in a bin is the plain truncation: the value that
    stands for an overflow is negative. *)
Lemma astype_int_in (x : Qc) (lo hi : Z) :
  0 <= lo -> hi <= 2 ^ 63 ->
  (lo <= astype_int x < hi <-> lo <= Qc_trunc x < hi).
Proof.
  intros Hlo Hhi. unfold astype_int. cbv zeta.
  destruct (Z.leb_spec (- 2 ^ 63) (Qc_trunc x)), (Z.ltb_spec (Qc_trunc x) (2 ^ 63));
    cbn [andb]; lia.
Qed.

Lemma bool_eq_iff (a b : bool) : (a = true <-> b = true) -> a = b.
Proof. destruct a, b; intros [H1 H2]; try reflexivity; [symmetry; apply H1 | apply H2]; reflexivity. Qed.

Lemma age_bin_first (x : Qc) (hi : Z) :
  1 <= hi <= 2 ^ 63 ->
  (0 <=? astype_int x) && (astype_int x <? hi)
  = Qc_ltb (Qc_of_Z (-1)) x && Qc_ltb x (Qc_of_Z hi).
Proof.
  intros Hhi. apply bool_eq_iff.
  rewrite !andb_true_iff, Z.leb_le, Z.ltb_lt, !Qc_ltb_lt, Qc_gt_of_Z, Qc_lt_of_Z.
  pose proof (astype_int_in x 0 hi ltac:(lia) ltac:(lia)) as Hin.
  unfold Qc_trunc in Hin.
  pose proof (quot_nonneg_pos (Qnum x) (Zpos (Qden x)) ltac:(lia)).
  pose proof (quot_lt_pos (Qnum x) (Zpos (Qden x)) hi ltac:(lia) ltac:(lia)).
  lia.
Qed.

Lemma age_bin_middle (x : Qc) (lo hi : Z) :
  1 <= lo -> 1 <= hi <= 2 ^ 63 ->
  (lo <=? astype_int x) && (astype_int x <? hi)
  = Qc_leb (Qc_of_Z lo) x && Qc_ltb x (Qc_of_Z hi).
Proof.
  intros Hlo Hhi. apply bool_eq_iff.
  rewrite !andb_true_iff, Z.leb_le, Z.ltb_lt, Qc_leb_le, Qc_ltb_lt, Qc_ge_of_Z, Qc_lt_of_Z.
  pose proof (astype_int_in x lo hi ltac:(lia) ltac:(lia)) as Hin.
  unfold Qc_trunc in Hin.
  pose proof (quot_ge_pos (Qnum x) (Zpos (Qden x)) lo ltac:(lia) ltac:(lia)).
  pose proof (quot_lt_pos (Qnum x) (Zpos (Qden x)) hi ltac:(lia) ltac:(lia)).
  lia.
Qed.

Lemma age_bin_last (x : Qc) (lo hi : Z) :
  1 <= lo -> 0 <= hi < 2 ^ 63 ->
  (lo <=? astype_int x) && (astype_int x <=? hi)
  = Qc_leb (Qc_of_Z lo) x && Qc_ltb x (Qc_of_Z (hi + 1)).
Proof.
  intros Hlo Hhi. rewrite <- (age_bin_middle x lo (hi + 1)) by lia.
  f_equal. apply bool_eq_iff. rewrite Z.leb_le, Z.ltb_lt. lia.
Qed.

Lemma count_where_ext {A} (p q : A -> bool) (l : list A) :
  (forall a, p a = q a) -> count_where p l = count_where q l.
Proof. intros H. unfold count_where. rewrite (filter_ext p q H). reflexivity. Qed.

Lemma count_where_range {A} (p : A -> bool) (l : list A) :
  0 <= count_where p l <= Z.of_nat (length l).
Proof.
  unfold count_where. pose proof (filter_length_le p l). lia.
Qed.

Lemma searchsorted_left_diff (a : list Z) (e1 e2 : Z) :
  e1 <= e2 ->
  searchsorted_left a e2 - searchsorted_left a e1
  = count_where (fun x => (e1 <=? x) && (x <? e2)) a.
Proof.
  intros He. unfold searchsorted_left, count_where.
  induction a as [|x a IH]; [reflexivity|].
  cbn [List.filter].
  destruct (Z.ltb_spec x e2), (Z.ltb_spec x e1), (Z.leb_spec e1 x);
    cbn [andb length]; lia.
Qed.

Lemma searchsorted_right_diff (a : list Z) (e1 e2 : Z) :
  e1 <= e2 ->
  searchsorted_right a e2 - searchsorted_left a e1
  = count_where (fun x => (e1 <=? x) && (x <=? e2)) a.
Proof.
  intros He. unfold searchsorted_right, searchsorted_left, count_where.
  induction a as [|x a IH]; [reflexivity|].
  cbn [List.filter].
  destruct (Z.leb_spec x e2), (Z.ltb_spec x e1), (Z.leb_spec e1 x);
    cbn [andb length]; lia.
Qed.

Section AgeDistribution.

Variable float_of_string : string -> option Qc.

Lemma count_where_int_ages (p : Z -> bool) (df : DataFrame) :
  count_where p (int_ages float_of_string df)
  = count_ages float_of_string (fun x => p (astype_int x)) df.
Proof.
  unfold count_ages, count_where, int_ages, age_of.
  induction df as [|[i r] df IH]; [reflexivity|].
  cbn [omap list_omap List.filter snd].
  destruct (float_cell (to_numeric float_of_string (age r))) as [x|]; cbn [fmap option_fmap option_map].
  - cbn [List.filter]. destruct (p (astype_int x)); cbn [length]; lia.
  - exact IH.
Qed.

Lemma count_ages_ext (p q : Qc -> bool) (df : DataFrame) :
  (forall x, p x = q x) ->
  count_ages float_of_string p df = count_ages float_of_string q df.
Proof.
  intros H. apply count_where_ext. intros [i r]. cbn [snd].
  destruct (age_of float_of_string r); [apply H | reflexivity].
Qed.

Lemma show_age_distrib_run (df : DataFrame) :
  show_age_distrib float_of_string (mkQA (Some df))
  = (Ok (histogram (int_ages float_of_string df) [0; 10; 20; 30; 40; 50; 60; 70; 80; 90; 100]),
     mkQA (Some df)).
Proof. reflexivity. Qed.

Lemma histogram_bins (df : DataFrame) :
  fst (histogram (int_ages float_of_string df) [0; 10; 20; 30; 40; 50; 60; 70; 80; 90; 100])
  = map (fun k => count_ages float_of_string (age_bin k) df) [0; 1; 2; 3; 4; 5; 6; 7; 8; 9].
Proof.
  unfold histogram.
  cbn [length Nat.sub take drop map app diff fst].
  rewrite !searchsorted_left_diff, searchsorted_right_diff by lia.
  rewrite !count_where_int_ages.
  repeat (apply (f_equal2 cons); [apply count_ages_ext; intros x|]);
    try reflexivity;
    first [ rewrite age_bin_first by lia
          | rewrite age_bin_middle by lia
          | rewrite age_bin_last by lia ];
    reflexivity.
Qed.

(** X1.  The histogram has ten bins over the edges 0, 10, ..., 100 and
    leaves [self.data] alone.  Because ages are truncated toward zero
    before they are binned, bin 0 counts the ages strictly between -1 and
    10, bin [k] (1 to 8) the ages from [10 k] up to but not including
    [10 k + 10], and the last bin the ages from 90 up to but not including
    101.  Missing and non-numeric ages are counted nowhere. *)
Theorem show_age_distrib_bins (df : DataFrame) :
  show_age_distrib float_of_string (mkQA (Some df))
  = (Ok (map (fun k => count_ages float_of_string (age_bin k) df)
             [0; 1; 2; 3; 4; 5; 6; 7; 8; 9],
         [0; 10; 20; 30; 40; 50; 60; 70; 80; 90; 100]),
     mkQA (Some df)).
Proof.
  rewrite show_age_distrib_run, <- histogram_bins. reflexivity.
Qed.

(** X2.  The counts are not negative and add up to the number of rows
    whose age is a number strictly between -1 and 101: every such row is
    counted exactly once, and no other row is counted. *)
Theorem show_age_distrib_total (df : DataFrame) :
  exists hist edges,
    show_age_distrib float_of_string (mkQA (Some df)) = (Ok (hist, edges), mkQA (Some df))
    /\ length hist = 10%nat
    /\ Forall (fun n => 0 <= n) hist
    /\ foldr Z.add 0 hist
       = count_ages float_of_string
           (fun x => Qc_ltb (Qc_of_Z (-1)) x && Qc_ltb x (Qc_of_Z 101)) df
    /\ foldr Z.add 0 hist <= Z.of_nat (length df).
Proof.
  exists (map (fun k => count_ages float_of_string (age_bin k) df)
              [0; 1; 2; 3; 4; 5; 6; 7; 8; 9]),
         [0; 10; 20; 30; 40; 50; 60; 70; 80; 90; 100].
  split; [rewrite show_age_distrib_run, <- histogram_bins; reflexivity|].
  split; [reflexivity|]. split.
  - apply Forall_map. apply List.Forall_forall. intros k _.
    apply count_where_range.
  - assert (E : foldr Z.add 0
                  (map (fun k => count_ages float_of_string (age_bin k) df)
                       [0; 1; 2; 3; 4; 5; 6; 7; 8; 9])
                = count_ages float_of_string
                    (fun x => Qc_ltb (Qc_of_Z (-1)) x && Qc_ltb x (Qc_of_Z 101)) df).
    { rewrite <- histogram_bins. unfold histogram.
      cbn [length Nat.sub take drop map app diff foldr fst].
      transitivity (searchsorted_right (int_ages float_of_string df) 100
                    - searchsorted_left (int_ages float_of_string df) 0); [lia|].
      rewrite searchsorted_right_diff by lia. rewrite count_where_int_ages.
      apply count_ages_ext. intros x.
      rewrite <- (age_bin_first x 101) by lia.
      f_equal. apply bool_eq_iff. rewrite Z.leb_le, Z.ltb_lt. lia. }
    split; [exact E|]. rewrite E. apply count_where_range.
Qed.

End AgeDistribution.

(** ** More on score_subjects *)

Section ScoreSubjectsMore.

Variable float_of_string : string -> option Qc.

Local Abbreviation coerced := (coerce_row float_of_string).

Lemma coerce_row_idem (r : Row) : coerced (coerced r) = coerced r.
Proof.
  unfold coerce_row. cbn [age timestamp email gender q1 q2 q3 q4 q5 score].
  rewrite !to_numeric_idem. reflexivity.
Qed.

Lemma score_row_coerced_again (m m' : Z) (r : Row) :
  score_row m' (coerced (score_row m (coerced r))) = score_row m' (coerced r).
Proof.
  unfold score_row at 2.
  destruct (row_mean (coerced r)) as [x|] eqn:Ex.
  - cbv zeta.
    assert (E : forall v, score_row m' (coerced (set_score v (coerced r)))
                          = score_row m' (coerced r)).
    { intros v.
      change (coerced (set_score v (coerced r))) with (set_score v (coerced (coerced r))).
      rewrite coerce_row_idem. unfold score_row.
      change (row_mean (set_score v (coerced r))) with (row_mean (coerced r)).
      change (nan_count (set_score v (coerced r))) with (nan_count (coerced r)).
      destruct (row_mean (coerced r)); [|congruence].
      cbv zeta. destruct (m' <? nan_count (coerced r)); reflexivity. }
    destruct (m <? nan_count (coerced r)).
    + change (set_score None (set_score (Some (uint8_of_float x)) (coerced r)))
        with (set_score None (coerced r)). apply E.
    + apply E.
  - rewrite coerce_row_idem. reflexivity.
Qed.

Lemma castable_score_row (m : Z) (r : Row) :
  castable (coerced r) -> castable (coerced (score_row m (coerced r))).
Proof.
  intros (x & Hx & H0). exists x. split; [|exact H0].
  unfold score_row. rewrite Hx. cbv zeta.
  destruct (m <? nan_count (coerced r)).
  - change (coerced (set_score None (set_score (Some (uint8_of_float x)) (coerced r))))
      with (set_score None (coerced (coerced r))).
    rewrite coerce_row_idem. exact Hx.
  - change (coerced (set_score (Some (uint8_of_float x)) (coerced r)))
      with (set_score (Some (uint8_of_float x)) (coerced (coerced r))).
    rewrite coerce_row_idem. exact Hx.
Qed.

(** Coercing the answers first changes nothing for the scorer. *)
Lemma score_subjects_coerced (m : Z) (df : DataFrame) :
  score_subjects float_of_string m (mkQA (Some (map_rows coerced df)))
  = score_subjects float_of_string m (mkQA (Some df)).
Proof.
  rewrite !(score_subjects_run float_of_string).
  rewrite map_rows_map_rows, (map_rows_ext _ coerced) by apply coerce_row_idem.
  reflexivity.
Qed.

(** The object after a call, whichever way the call ended. *)
Lemma score_subjects_state (m : Z) (df : DataFrame) :
  (exists e, score_subjects float_of_string m (mkQA (Some df))
             = (Raise e, mkQA (Some (map_rows coerced df))))
  \/ (Forall (fun ir => castable (coerced (snd ir))) df
      /\ score_subjects float_of_string m (mkQA (Some df))
         = (Ok (map_rows (fun r => score_row m (coerced r)) df),
            mkQA (Some (map_rows (fun r => score_row m (coerced r)) df)))).
Proof.
  destruct (score_subjects float_of_string m (mkQA (Some df))) as [[df'|e] self'] eqn:E.
  - right. pose proof (score_subjects_ok_inv float_of_string m df df' self' E) as Hall.
    split; [exact Hall|]. rewrite <- E. apply score_subjects_castable. exact Hall.
  - left. exists e. rewrite score_subjects_run in E.
    destruct (astype_uint8 _); [discriminate|]. injection E as <- <-. reflexivity.
Qed.

(** X3.  A call to [score_subjects] does not depend on an earlier call:
    whatever the first call did (returned or raised), a second call, with
    the same or another threshold, gives what it would have given on the
    original object.  The score column is overwritten, never merged. *)
Theorem score_subjects_again (m m' : Z) (self : QuestionnaireAnalysis) :
  score_subjects float_of_string m' (snd (score_subjects float_of_string m self))
  = score_subjects float_of_string m' self.
Proof.
  destruct self as [[df|]]; [|reflexivity].
  destruct (score_subjects_state m df) as [[e He]|[Hall Hok]].
  - rewrite He. cbn [snd]. apply score_subjects_coerced.
  - rewrite Hok. cbn [snd].
    rewrite (score_subjects_castable float_of_string m' (map_rows _ df)).
    + rewrite (score_subjects_castable float_of_string m' df Hall).
      rewrite map_rows_map_rows.
      rewrite (map_rows_ext _ (fun r => score_row m' (coerced r)))
        by (intros r; apply score_row_coerced_again).
      reflexivity.
    + unfold map_rows. apply Forall_map.
      eapply Forall_impl; [exact Hall|]. intros [i r] Hc. cbn [snd fst] in *.
      apply castable_score_row. exact Hc.
Qed.



(** X5.  The threshold at its ends, when the call returns: below zero
    every score is pd.NA; from four upward no score is pd.NA, because a
    call that returns has met no subject with five missing answers. *)
Theorem score_subjects_threshold_ends (m : Z) (df df' : DataFrame)
        (self' : QuestionnaireAnalysis) :
  score_subjects float_of_string m (mkQA (Some df)) = (Ok df', self') ->
  (m < 0 -> Forall (fun ir => score (snd ir) = Some None) df')
  /\ (4 <= m -> Forall (fun ir => exists n, score (snd ir) = Some (Some n)) df').
Proof.
  intros Hrun.
  destruct (score_subjects_state m df) as [[e He]|[Hall Hok]]; [congruence|].
  rewrite Hok in Hrun. injection Hrun as <- _.
  split; intros Hm; unfold map_rows; apply Forall_map;
    (eapply Forall_impl; [exact Hall|]); intros [i r] (x & Hx & _); cbn [snd fst] in *;
    unfold score_row; rewrite Hx; cbv zeta;
    pose proof (nan_count_range (coerced r)) as Hrange;
    destruct (Z.ltb_spec m (nan_count (coerced r))) as [Hlt|Hge].
  - reflexivity.
  - lia.
  - assert (nan_count (coerced r) = 5) as H5 by lia.
    apply row_mean_none in H5. congruence.
  - eexists. reflexivity.
Qed.

(** X6.  Raising the threshold only adds scores: if the call returns with
    threshold [m] it returns with any [m' >= m], and every subject scored
    under [m] has the same score under [m']. *)
Theorem score_subjects_threshold_mono (m m' : Z) (df df1 : DataFrame)
        (self1 : QuestionnaireAnalysis) :
  m <= m' ->
  score_subjects float_of_string m (mkQA (Some df)) = (Ok df1, self1) ->
  exists df2,
    score_subjects float_of_string m' (mkQA (Some df)) = (Ok df2, mkQA (Some df2))
    /\ forall k i r1 n,
        df1 !! k = Some (i, r1) -> score r1 = Some (Some n) ->
        exists r2, df2 !! k = Some (i, r2) /\ score r2 = Some (Some n)
                   /\ answers r2 = answers r1.
Proof.
  intros Hm Hrun.
  destruct (score_subjects_state m df) as [[e He]|[Hall Hok]]; [congruence|].
  rewrite Hok in Hrun. injection Hrun as <- _.
  eexists. split; [apply score_subjects_castable; exact Hall|].
  intros k i r1 n Hk Hn. unfold map_rows in *.
  rewrite list_lookup_fmap in Hk |- *.
  destruct (df !! k) as [[j r]|] eqn:Edf; [|discriminate].
  cbn [fmap option_fmap option_map fst snd] in *. injection Hk as -> <-.
  eexists. split; [reflexivity|].
  rewrite List.Forall_forall in Hall.
  destruct (Hall (i, r)) as (x & Hx & _).
  { apply list_elem_of_In, list_elem_of_lookup. exists k. exact Edf. }
  cbn [snd] in Hx. unfold score_row in *. rewrite Hx in *. cbv zeta in *.
  destruct (Z.ltb_spec m (nan_count (coerced r))) as [Hlt|Hge]; [discriminate Hn|].
  destruct (Z.ltb_spec m' (nan_count (coerced r))) as [Hlt'|Hge']; [lia|].
  split; [exact Hn | reflexivity].
Qed.

(** X7.  Imputation does not reach the scores: since
    [fill_na_with_mean] writes its means into the frame it returns and not
    into [self.data], scoring after it gives exactly what scoring alone
    gives (result and object). *)
Theorem score_subjects_after_fill (m : Z) (self : QuestionnaireAnalysis) :
  score_subjects float_of_string m (snd (fill_na_with_mean float_of_string self))
  = score_subjects float_of_string m self.
Proof.
  destruct self as [[df|]]; [|reflexivity].
  rewrite fill_na_with_mean_run.
  destruct (fill_loop _ _ _); cbn [snd]; apply score_subjects_coerced.
Qed.

End ScoreSubjectsMore.

(** ** More on fill_na_with_mean *)

Lemma Qc_of_Z_nat_S (n : nat) :
  Qc_of_Z (Z.of_nat (S n)) = (Qc_of_Z (Z.of_nat n) + 1)%Qc.
Proof.
  unfold Qc_of_Z. apply Qc_is_canon.
  rewrite Nat2Z.inj_succ. unfold Z.succ. rewrite inject_Z_plus.
  unfold Qcplus. simpl. rewrite !Qred_correct. reflexivity.
Qed.

(** A row whose answers are floats or NaN, as every coerced row is. *)
Lemma numeric_row_shape (r : Row) :
  (forall c, get_q c r = cell_of_float (float_cell (get_q c r))) ->
  exists o1 o2 o3 o4 o5,
    r = mkRow (age r) (timestamp r) (email r) (gender r)
              (cell_of_float o1) (cell_of_float o2) (cell_of_float o3)
              (cell_of_float o4) (cell_of_float o5) (score r).
Proof.
  intros H.
  exists (float_cell (q1 r)), (float_cell (q2 r)), (float_cell (q3 r)),
         (float_cell (q4 r)), (float_cell (q5 r)).
  pose proof (H Cq1) as H1. pose proof (H Cq2) as H2. pose proof (H Cq3) as H3.
  pose proof (H Cq4) as H4. pose proof (H Cq5) as H5.
  cbn [get_q] in H1, H2, H3, H4, H5.
  rewrite <- H1, <- H2, <- H3, <- H4, <- H5.
  destruct r; reflexivity.
Qed.

Ltac numeric_cases r H :=
  let o1 := fresh "o" in let o2 := fresh "o" in let o3 := fresh "o" in
  let o4 := fresh "o" in let o5 := fresh "o" in let E := fresh "E" in
  destruct (numeric_row_shape r H) as (o1 & o2 & o3 & o4 & o5 & E);
  rewrite E; clear E;
  generalize (age r) (timestamp r) (email r) (gender r) (score r); intros ? ? ? ? ?;
  destruct o1 as [?x|], o2 as [?x|], o3 as [?x|], o4 as [?x|], o5 as [?x|].

(** Filling with the mean keeps the mean. *)
Lemma row_mean_impute_row (r : Row) :
  (forall c, get_q c r = cell_of_float (float_cell (get_q c r))) ->
  row_mean (impute_row r) = row_mean r.
Proof.
  intros H. numeric_cases r H;
    unfold impute_row, row_mean, present, answers, fillna;
    cbn [map question_cols get_q q1 q2 q3 q4 q5 omap list_omap float_cell cell_of_float
         mean_skipna isna length Qc_sum foldr];
    try reflexivity;
    f_equal; rewrite !Qc_of_Z_nat_S;
    change (Qc_of_Z (Z.of_nat 0)) with 0%Qc; change (Qc_of_Z 0) with 0%Qc;
    field; repeat split; intros Hz; discriminate Hz.
Qed.

Lemma nan_count_impute_row (r : Row) :
  (forall c, get_q c r = cell_of_float (float_cell (get_q c r))) ->
  nan_count (impute_row r) = if nan_count r =? 5 then 5 else 0.
Proof. intros H. numeric_cases r H; reflexivity. Qed.

Lemma fillna_fillna (f v : value) : fillna f (fillna f v) = fillna f v.
Proof. unfold fillna. destruct (isna v) eqn:E; [|rewrite E; reflexivity]. destruct (isna f); reflexivity. Qed.

Lemma impute_row_numeric (r : Row) :
  (forall c, get_q c r = cell_of_float (float_cell (get_q c r))) ->
  forall c, get_q c (impute_row r) = cell_of_float (float_cell (get_q c (impute_row r))).
Proof.
  intros H c. numeric_cases r H; destruct c; reflexivity.
Qed.

Lemma impute_row_idem (r : Row) :
  (forall c, get_q c r = cell_of_float (float_cell (get_q c r))) ->
  impute_row (impute_row r) = impute_row r.
Proof.
  intros H. unfold impute_row at 1.
  rewrite (row_mean_impute_row r H).
  unfold impute_row. cbn [age timestamp email gender q1 q2 q3 q4 q5 score].
  rewrite !fillna_fillna. reflexivity.
Qed.

Section FillNaMore.

Variable float_of_string : string -> option Qc.

Local Abbreviation coerced := (coerce_row float_of_string).

Lemma coerced_numeric (r : Row) (c : qcol) :
  get_q c (coerced r) = cell_of_float (float_cell (get_q c (coerced r))).
Proof. destruct c; apply to_numeric_float. Qed.

Lemma coerce_row_numeric (r : Row) :
  (forall c, get_q c r = cell_of_float (float_cell (get_q c r))) ->
  coerced r = r.
Proof.
  intros H.
  destruct (numeric_row_shape r H) as (o1 & o2 & o3 & o4 & o5 & E).
  rewrite E. destruct o1 as [?x|], o2 as [?x|], o3 as [?x|], o4 as [?x|], o5 as [?x|];
    reflexivity.
Qed.

(** X8.  In the frame [fill_na_with_mean] returns every row is either
    complete or entirely missing: a subject with at least one answer has
    no missing answer left, a subject without any answer keeps all five
    missing. *)
Theorem fill_na_with_mean_complete_or_empty (rs : list Row) :
  exists filled rows,
    fst (fill_na_with_mean float_of_string (loaded rs)) = Ok (filled, rows)
    /\ length filled = length rs
    /\ forall i r, rs !! i = Some r ->
       exists r', filled !! i = Some (i, r')
         /\ nan_count r' = if nan_count (coerced r) =? 5 then 5 else 0.
Proof.
  eexists _, _. split; [rewrite fill_na_with_mean_loaded; reflexivity|].
  split.
  - unfold of_records. rewrite length_combine, length_seq, length_map. lia.
  - intros i r Hr. exists (impute_row (coerced r)). split.
    + apply of_records_lookup. rewrite list_lookup_fmap, Hr. reflexivity.
    + apply nan_count_impute_row. apply coerced_numeric.
Qed.

(** X10.  Imputing twice changes nothing more: loading the returned frame
    and calling [fill_na_with_mean] again returns the same frame, and
    leaves it as [self.data]. *)
Theorem fill_na_with_mean_idempotent (rs : list Row) :
  exists filled rows rows',
    fst (fill_na_with_mean float_of_string (loaded rs)) = Ok (filled, rows)
    /\ fill_na_with_mean float_of_string (loaded (records filled))
       = (Ok (filled, rows'), mkQA (Some filled)).
Proof.
  eexists _, _, _. split; [rewrite fill_na_with_mean_loaded; reflexivity|].
  rewrite records_of_records, fill_na_with_mean_loaded.
  f_equal.
  - f_equal. f_equal. f_equal. rewrite map_map. apply map_ext. intros r.
    rewrite (coerce_row_numeric (impute_row (coerced r))).
    + apply impute_row_idem. apply coerced_numeric.
    + apply impute_row_numeric. apply coerced_numeric.
  - f_equal. f_equal. f_equal. rewrite map_map. apply map_ext. intros r.
    apply coerce_row_numeric. apply impute_row_numeric. apply coerced_numeric.
Qed.

End FillNaMore.

(** ** More on the e-mail filter and the cleaner *)

Lemma series_apply_is_valid_email_raises (df : DataFrame) :
  forallb (fun ir => text_or_missing (email (snd ir))) df = false ->
  series_apply is_valid_email (series_of email df) = Raise AttributeError.
Proof.
  unfold series_of.
  induction df as [|[i r] df IH]; cbn [forallb map series_apply fst snd]; [discriminate|].
  rewrite is_valid_email_cases.
  destruct (text_or_missing (email r)); cbn [andb]; [|reflexivity].
  intros H. rewrite (IH H). reflexivity.
Qed.

(** C6 (the code departs from the claim).  As soon as one e-mail cell is
    neither a string nor missing (a number, say), the call raises
    AttributeError at [email.split]: no dataset is returned, and the rows
    with a valid address do not survive either. *)
Theorem remove_rows_without_mail_numeric_email_raises (df : DataFrame) :
  Exists (fun ir => text_or_missing (email (snd ir)) = false) df ->
  remove_rows_without_mail (mkQA (Some df)) = (Raise AttributeError, mkQA (Some df)).
Proof.
  intros Hex.
  assert (E : forallb (fun ir => text_or_missing (email (snd ir))) df = false).
  { apply not_true_is_false. intros Hall. rewrite forallb_forall in Hall.
    apply List.Exists_exists in Hex as (ir & Hin & Hf).
    rewrite (Hall ir Hin) in Hf. discriminate Hf. }
  unfold remove_rows_without_mail, mbind, M_bind, get_data, raise, mret, M_ret.
  cbn beta iota delta [data].
  rewrite (series_apply_is_valid_email_raises df E). reflexivity.
Qed.

(** X12.  What [remove_rows_without_mail] returns on any loaded frame: the
    surviving rows, renumbered, when every e-mail cell is a string or
    missing, and AttributeError as soon as one cell is a number or a
    point in time.  It raises nothing else; in particular [domain[0]] is
    never evaluated on an empty domain. *)
Theorem remove_rows_without_mail_result (df : DataFrame) :
  fst (remove_rows_without_mail (mkQA (Some df)))
  = if forallb (fun ir => text_or_missing (email (snd ir))) df
    then Ok (of_records (List.filter survives (records df)))
    else Raise AttributeError.
Proof.
  destruct (forallb _ df) eqn:E.
  - rewrite remove_rows_without_mail_run; [reflexivity|].
    apply List.Forall_forall. intros ir Hin.
    rewrite forallb_forall in E. apply E. exact Hin.
  - unfold remove_rows_without_mail, mbind, M_bind, get_data, raise, mret, M_ret.
    cbn beta iota delta [data].
    rewrite (series_apply_is_valid_email_raises df E). reflexivity.
Qed.

(** X13.  [remove_rows_without_mail] never changes [self.data], whether it
    returns or raises. *)
Theorem remove_rows_without_mail_keeps_data (self : QuestionnaireAnalysis) :
  snd (remove_rows_without_mail self) = self.
Proof.
  destruct self as [[df|]]; [|reflexivity].
  unfold remove_rows_without_mail, mbind, M_bind, get_data, raise, mret, M_ret.
  cbn beta iota delta [data].
  destruct (series_apply _ _); reflexivity.
Qed.

Lemma last_piece_one (c : ascii) (s : string) :
  count_char c s = 1%nat -> last_piece c s = after_first c s.
Proof.
  intros H. unfold last_piece.
  pose proof (split_pieces_one c s H) as Hps.
  destruct (split_pieces c s) as [p ps]. cbn [snd] in Hps. rewrite Hps. reflexivity.
Qed.

Section CleanDataMore.

Variable float_of_string : string -> option Qc.
Variable datetime_of : value -> option Z.
Variable tz_aware : value -> bool.

Local Abbreviation clean := (clean_data float_of_string datetime_of).
Local Abbreviation kept := (keeps float_of_string datetime_of).
Local Abbreviation cleaned := (clean_row float_of_string datetime_of).

(** X14.  The e-mail filter is stricter than the cleaner: every address
    the filter accepts is kept unchanged by the cleaner's e-mail rule. *)
Theorem is_valid_email_clean_email (v : value) :
  is_valid_email v = Ok true -> clean_email v = v.
Proof.
  rewrite is_valid_email_cases.
  destruct v as [|x|s|t]; cbn [text_or_missing]; try discriminate.
  intros [= Hs]. apply email_ruleb_rule in Hs as (Hcount & Hdot & _).
  unfold clean_email.
  rewrite (last_piece_one at_sign s Hcount), Hdot.
  replace (contains at_sign s) with true; [reflexivity|].
  symmetry. apply contains_count. lia.
Qed.

Lemma clean_data_in (now : Z) (data : DataFrame) (i : nat) (r' : Row) :
  In (i, r') (clean now data) <->
  exists r, In (i, r) data /\ kept now r = true /\ r' = cleaned r.
Proof.
  rewrite clean_data_run. unfold map_rows, where_rows. rewrite in_map_iff. split.
  - intros ([j r] & E & Hin). cbn [fst snd] in E. injection E as -> <-.
    apply filter_In in Hin as [Hin Hk]. exists r. tauto.
  - intros (r & Hin & Hk & ->). exists (i, r). split; [reflexivity|].
    apply filter_In. tauto.
Qed.

(** X15.  A frame that [clean_data] has returned is always acceptable to
    the e-mail filter: on it [remove_rows_without_mail] returns (it cannot
    meet a cell that is not a string) the rows that pass the stricter
    rule, renumbered, and [self.data] stays the cleaned frame. *)
Theorem remove_rows_without_mail_after_clean (now : Z) (data df : DataFrame) :
  clean_data_call float_of_string datetime_of tz_aware now data = Ok df ->
  remove_rows_without_mail (mkQA (Some df))
  = (Ok (of_records (List.filter survives (records df))), mkQA (Some df)).
Proof.
  unfold clean_data_call. cbv zeta. destruct (existsb _ _); [discriminate|].
  intros [= <-].
  apply remove_rows_without_mail_run.
  apply List.Forall_forall. intros [i r'] Hin.
  destruct (proj1 (clean_data_in now data i r') Hin) as (r & _ & Hk & ->).
  cbn [snd clean_row email].
  unfold keeps in Hk. apply andb_true_iff in Hk as [Hk _].
  apply andb_true_iff in Hk as [_ He].
  unfold clean_email in *. destruct (email r) as [| |s|]; try discriminate He.
  destruct (_ && _); [reflexivity | discriminate He].
Qed.

Lemma kept_cleaned (now now' : Z) (r : Row) :
  now <= now' -> kept now r = true -> kept now' (cleaned r) = true.
Proof.
  intros Hnow Hk. unfold keeps in *.
  apply andb_true_iff in Hk as [Hk Hg]. apply andb_true_iff in Hk as [Hk He].
  apply andb_true_iff in Hk as [Ha Ht].
  cbn [clean_row age timestamp email gender].
  rewrite !andb_true_iff. repeat split.
  - unfold age_ok in *. cbn [age set_age] in *. rewrite to_numeric_idem. exact Ha.
  - unfold timestamp_ok in *. cbn [timestamp set_timestamp] in *.
    destruct (to_datetime datetime_of (timestamp r)) as [| | |t]; try discriminate Ht.
    cbn [to_datetime]. apply Z.leb_le in Ht. apply Z.leb_le. lia.
  - unfold clean_email in *. destruct (email r) as [| |s|]; try discriminate He.
    destruct (contains at_sign s && contains dot (last_piece at_sign s)) eqn:E;
      [|discriminate He].
    rewrite E. reflexivity.
  - unfold clean_gender in *. destruct (gender r) as [| |g|]; try discriminate Hg.
    destruct (bool_decide (g ∈ valid_genders)) eqn:E; [|discriminate Hg].
    rewrite E. reflexivity.
Qed.

Lemma cleaned_cleaned (now : Z) (r : Row) :
  kept now r = true -> cleaned (cleaned r) = cleaned r.
Proof.
  intros Hk. unfold keeps in *.
  apply andb_true_iff in Hk as [Hk Hg]. apply andb_true_iff in Hk as [Hk He].
  apply andb_true_iff in Hk as [Ha Ht].
  unfold clean_row. cbn [age timestamp email gender q1 q2 q3 q4 q5 score].
  rewrite !to_numeric_idem.
  assert (Et : to_datetime datetime_of (to_datetime datetime_of (timestamp r))
               = to_datetime datetime_of (timestamp r)).
  { unfold timestamp_ok in Ht. cbn [timestamp set_timestamp] in Ht.
    destruct (to_datetime datetime_of (timestamp r)); try discriminate Ht. reflexivity. }
  assert (Ee : clean_email (clean_email (email r)) = clean_email (email r)).
  { unfold clean_email in *. destruct (email r) as [| |s|]; try discriminate He.
    destruct (contains at_sign s && contains dot (last_piece at_sign s)) eqn:E;
      [|discriminate He].
    rewrite E. reflexivity. }
  assert (Eg : clean_gender (clean_gender (gender r)) = clean_gender (gender r)).
  { unfold clean_gender in *. destruct (gender r) as [| |g|]; try discriminate Hg.
    destruct (bool_decide (g ∈ valid_genders)) eqn:E; [|discriminate Hg].
    rewrite E. reflexivity. }
  rewrite Et, Ee, Eg. reflexivity.
Qed.

(** X16.  Cleaning is idempotent: cleaning a cleaned frame again, at the
    same moment or later, returns it unchanged. *)
Theorem clean_data_idempotent (now now' : Z) (data : DataFrame) :
  now <= now' ->
  clean_data float_of_string datetime_of now'
    (clean_data float_of_string datetime_of now data)
  = clean_data float_of_string datetime_of now data.
Proof.
  intros Hnow. rewrite (clean_data_run _ _ now' (clean now data)).
  rewrite (clean_data_run _ _ now data).
  rewrite where_rows_map_rows, map_rows_map_rows.
  generalize data. clear data. intros data.
  unfold map_rows, where_rows.
  induction data as [|[i r] data IH]; [reflexivity|].
  cbn [List.filter map fst snd].
  destruct (kept now r) eqn:Hk; cbn [List.filter map fst snd]; [|exact IH].
  rewrite (kept_cleaned now now' r Hnow Hk). cbn [map fst snd].
  rewrite (cleaned_cleaned now r Hk), IH. reflexivity.
Qed.

(** X17.  The cleaner only removes rows: the labels of its output are a
    subsequence of the labels of its input, and every output row is the
    cleaned form of the input row with the same label. *)
Theorem clean_data_only_removes (now : Z) (data : DataFrame) :
  sublist (index (clean now data)) (index data)
  /\ forall i r', In (i, r') (clean now data) ->
       exists r, In (i, r) data /\ r' = cleaned r.
Proof.
  split.
  - rewrite clean_data_run, index_map_rows. unfold index, where_rows.
    induction data as [|[i r] data IH]; [constructor|].
    cbn [List.filter map fst snd]. destruct (kept now r); cbn [map fst].
    + apply sublist_skip. exact IH.
    + apply sublist_cons. exact IH.
  - intros i r' Hin.
    destruct (proj1 (clean_data_in now data i r') Hin) as (r & Hr & _ & E).
    exists r. tauto.
Qed.

End CleanDataMore.

(** ** More on correlate_gender_age, and how the methods combine *)

Section Combined.

Variable float_of_string : string -> option Qc.

Local Abbreviation coerced := (coerce_row float_of_string).
Local Abbreviation numeric df :=
  (coerce_age float_of_string (apply_to_numeric float_of_string df)).

Lemma numeric_rows (df : DataFrame) :
  numeric df
  = map_rows (fun r => set_age (to_numeric float_of_string (age r)) (coerced r)) df.
Proof. unfold coerce_age. rewrite apply_to_numeric_rows, map_rows_map_rows. reflexivity. Qed.

Lemma numeric_idem (df : DataFrame) : numeric (numeric df) = numeric df.
Proof.
  rewrite !numeric_rows, map_rows_map_rows. apply map_rows_ext. intros r.
  unfold set_age, coerce_row. cbn [age timestamp email gender q1 q2 q3 q4 q5 score].
  rewrite !to_numeric_idem. reflexivity.
Qed.

(** X18.  Calling [correlate_gender_age] twice gives the same table and
    leaves the same [self.data] as calling it once: all it changes in the
    object is the coercion of the answers and the age, which is
    idempotent. *)
Theorem correlate_gender_age_again (self : QuestionnaireAnalysis) :
  correlate_gender_age float_of_string (snd (correlate_gender_age float_of_string self))
  = correlate_gender_age float_of_string self.
Proof.
  destruct self as [[df|]]; [|reflexivity].
  rewrite (correlate_gender_age_run float_of_string df). cbn [snd].
  rewrite (correlate_gender_age_run float_of_string (numeric df)).
  rewrite numeric_idem. reflexivity.
Qed.

(** X19.  The table is empty exactly when no row has both an age that
    coerces to a number and a gender that is not missing. *)
Theorem correlate_gender_age_empty (df : DataFrame) :
  fst (correlate_gender_age float_of_string (mkQA (Some df))) = Ok ∅
  <-> Forall (fun ir => isna (to_numeric float_of_string (age (snd ir)))
                        || isna (gender (snd ir)) = true) df.
Proof.
  rewrite (correlate_gender_age_run float_of_string df). cbn [fst].
  split.
  - intros [= Hempty]. apply List.Forall_forall. intros [i r] Hin. cbn [snd].
    destruct (isna (to_numeric float_of_string (age r))) eqn:Ea; [reflexivity|].
    destruct (isna (gender r)) eqn:Eg; [reflexivity|]. exfalso.
    pose proof (correlate_gender_age_lookup float_of_string df (gender r)
                  (age_above_40 (to_numeric float_of_string (age r)))) as Hl.
    rewrite Hempty, lookup_empty, Eg in Hl.
    assert (Hmem : In (set_age (to_numeric float_of_string (age r)) (coerced r))
                      (List.filter (in_group (gender r)
                                      (age_above_40 (to_numeric float_of_string (age r))))
                                   (records (numeric df)))).
    { apply filter_In. split.
      - rewrite numeric_rows, records_map_rows. apply in_map_iff.
        exists r. split; [reflexivity|]. apply (in_map snd _ _ Hin).
      - unfold in_group, notna. cbn [age gender set_age coerce_row]. rewrite Ea.
        rewrite bool_decide_eq_true_2 by reflexivity. rewrite Bool.eqb_reflx. reflexivity. }
    destruct (List.filter _ _); [exact Hmem | discriminate Hl].
  - intros Hall. f_equal. apply map_eq. intros [g b].
    rewrite (correlate_gender_age_lookup float_of_string df g b), lookup_empty.
    destruct (isna g) eqn:Eg; [reflexivity|].
    replace (List.filter (in_group g b) (records (numeric df))) with (@nil Row); [reflexivity|].
    symmetry. rewrite numeric_rows, records_map_rows.
    rewrite List.Forall_forall in Hall.
    unfold records. rewrite map_map.
    induction df as [|[i r] df IH]; [reflexivity|].
    cbn [map List.filter snd].
    rewrite IH by (intros ir Hin; apply Hall; right; exact Hin).
    replace (in_group g b (set_age (to_numeric float_of_string (age r)) (coerced r)))
      with false; [reflexivity|].
    symmetry. unfold in_group, notna. cbn [age gender set_age coerce_row].
    specialize (Hall (i, r) (or_introl eq_refl)). cbn [snd] in Hall.
    destruct (isna (to_numeric float_of_string (age r))); [reflexivity|].
    cbn [orb negb andb] in *.
    rewrite bool_decide_eq_false_2; [reflexivity|]. intros E. congruence.
Qed.

Lemma int_ages_map_rows (g : Row -> Row) (df : DataFrame) :
  (forall r, to_numeric float_of_string (age (g r)) = to_numeric float_of_string (age r)) ->
  int_ages float_of_string (map_rows g df) = int_ages float_of_string df.
Proof.
  intros H. unfold int_ages, map_rows.
  induction df as [|[i r] df IH]; [reflexivity|].
  cbn [map omap list_omap fst snd]. rewrite H, IH. reflexivity.
Qed.

Lemma show_age_distrib_map_rows (g : Row -> Row) (df : DataFrame) :
  (forall r, to_numeric float_of_string (age (g r)) = to_numeric float_of_string (age r)) ->
  fst (show_age_distrib float_of_string (mkQA (Some (map_rows g df))))
  = fst (show_age_distrib float_of_string (mkQA (Some df))).
Proof.
  intros H. rewrite !show_age_distrib_run. cbn [fst].
  rewrite (int_ages_map_rows g df H). reflexivity.
Qed.

(** X22.  The age histogram does not depend on which other methods ran
    before it: after [score_subjects], [fill_na_with_mean],
    [correlate_gender_age] or [remove_rows_without_mail], whether they
    returned or raised, it is the histogram of the original object. *)
Theorem show_age_distrib_after (m : Z) (self : QuestionnaireAnalysis) :
  fst (show_age_distrib float_of_string (snd (score_subjects float_of_string m self)))
  = fst (show_age_distrib float_of_string self)
  /\ fst (show_age_distrib float_of_string (snd (fill_na_with_mean float_of_string self)))
     = fst (show_age_distrib float_of_string self)
  /\ fst (show_age_distrib float_of_string (snd (correlate_gender_age float_of_string self)))
     = fst (show_age_distrib float_of_string self)
  /\ fst (show_age_distrib float_of_string (snd (remove_rows_without_mail self)))
     = fst (show_age_distrib float_of_string self).
Proof.
  destruct self as [[df|]]; [|repeat split; reflexivity].
  split; [|split; [|split]].
  - destruct (score_subjects_state float_of_string m df) as [[e He]|[_ Hok]].
    + rewrite He. cbn [snd]. apply show_age_distrib_map_rows. reflexivity.
    + rewrite Hok. cbn [snd]. apply show_age_distrib_map_rows.
      intros r. unfold score_row.
      destruct (row_mean (coerced r)); [|reflexivity].
      cbv zeta. destruct (m <? nan_count (coerced r)); reflexivity.
  - rewrite fill_na_with_mean_run.
    destruct (fill_loop _ _ _); cbn [snd]; apply show_age_distrib_map_rows; reflexivity.
  - rewrite (correlate_gender_age_run float_of_string df). cbn [snd].
    rewrite numeric_rows. apply show_age_distrib_map_rows.
    intros r. cbn [age set_age]. apply to_numeric_idem.
  - unfold remove_rows_without_mail, mbind, M_bind, get_data, raise, mret, M_ret.
    cbn beta iota delta [data].
    destruct (series_apply _ _); reflexivity.
Qed.

(** Before any data is loaded ([self.data] is None, as [__init__] leaves
    it) every analysis method refuses to run and leaves the object as it
    is: [show_age_distrib], [fill_na_with_mean], [score_subjects] and
    [correlate_gender_age] raise ValueError, and
    [remove_rows_without_mail] raises TypeError. *)
Lemma methods_need_data (m : Z) :
  show_age_distrib float_of_string (mkQA None) = (Raise ValueError, mkQA None)
  /\ fill_na_with_mean float_of_string (mkQA None) = (Raise ValueError, mkQA None)
  /\ score_subjects float_of_string m (mkQA None) = (Raise ValueError, mkQA None)
  /\ correlate_gender_age float_of_string (mkQA None) = (Raise ValueError, mkQA None)
  /\ remove_rows_without_mail (mkQA None) = (Raise TypeError, mkQA None).
Proof. repeat split; reflexivity. Qed.

End Combined.

Section AfterClean.

Variable float_of_string : string -> option Qc.
Variable datetime_of : value -> option Z.

Local Abbreviation coerced := (coerce_row float_of_string).
Local Abbreviation numeric df :=
  (coerce_age float_of_string (apply_to_numeric float_of_string df)).
Local Abbreviation clean := (clean_data float_of_string datetime_of).

(** X21.  After cleaning, every row finds its group: for each row of a
    cleaned frame the table has an entry under (its gender, its age above
    40). *)
Theorem correlate_gender_age_after_clean (now : Z) (data : DataFrame) (i : nat) (r : Row) :
  In (i, r) (clean now data) ->
  exists (table : gmap (value * bool) (list value)) means,
    fst (correlate_gender_age float_of_string (mkQA (Some (clean now data)))) = Ok table
    /\ table !! (gender r, age_above_40 (age r)) = Some means.
Proof.
  intros Hin.
  destruct (proj1 (clean_data_in float_of_string datetime_of now data i r) Hin)
    as (r0 & _ & Hk & E).
  eexists. rewrite correlate_gender_age_run. cbn [fst].
  rewrite (correlate_gender_age_lookup float_of_string (clean now data)).
  unfold keeps in Hk.
  apply andb_true_iff in Hk as [Hk Hg]. apply andb_true_iff in Hk as [Hk _].
  apply andb_true_iff in Hk as [Ha _].
  assert (Hgen : isna (gender r) = false).
  { subst r. cbn [gender clean_row]. unfold notna in Hg.
    destruct (isna (clean_gender (gender r0))); [discriminate Hg | reflexivity]. }
  assert (Hage : exists x, age r = Num x).
  { subst r. cbn [age clean_row]. unfold age_ok in Ha. cbn [age set_age] in Ha.
    destruct (to_numeric float_of_string (age r0)) as [|x| |]; try discriminate Ha.
    exists x. reflexivity. }
  destruct Hage as [x Hx]. rewrite Hgen.
  assert (Hmem : In (set_age (to_numeric float_of_string (age r)) (coerced r))
                    (List.filter (in_group (gender r) (age_above_40 (age r)))
                                 (records (numeric (clean now data))))).
  { apply filter_In. split.
    - rewrite numeric_rows, records_map_rows. apply in_map_iff.
      exists r. split; [reflexivity|]. apply (in_map snd _ _ Hin).
    - unfold in_group, notna. cbn [age gender set_age coerce_row].
      rewrite Hx. cbn [to_numeric isna negb andb].
      rewrite bool_decide_eq_true_2 by reflexivity. rewrite Bool.eqb_reflx. reflexivity. }
  destruct (List.filter _ _) as [|m ms]; [destruct Hmem|].
  eexists. split; reflexivity.
Qed.

End AfterClean.

(** ** The further statements at concrete data *)


Lemma score_subjects_threshold_ends_witness :
  Forall (fun ir => score (snd ir) = Some None) three_subjects_unscored.
Proof.
  assert (Hrun : score_subjects no_float (-1) (mkQA (Some (of_records three_subjects)))
                 = (Ok three_subjects_unscored, mkQA (Some three_subjects_unscored)))
    by (vm_compute; reflexivity).
  apply (proj1 (score_subjects_threshold_ends no_float (-1) _ _ _ Hrun)). lia.
Defined.

Lemma score_subjects_threshold_mono_witness :
  exists df2,
    score_subjects no_float 2 (mkQA (Some (of_records three_subjects)))
    = (Ok df2, mkQA (Some df2))
    /\ exists r2, df2 !! 1%nat = Some (1%nat, r2) /\ score r2 = Some (Some 25).
Proof.
  assert (Hrun : score_subjects no_float 1 (mkQA (Some (of_records three_subjects)))
                 = (Ok three_subjects_scored, mkQA (Some three_subjects_scored)))
    by (vm_compute; reflexivity).
  destruct (score_subjects_threshold_mono no_float 1 2 _ _ _ ltac:(lia) Hrun)
    as (df2 & Hrun2 & Hrows).
  exists df2. split; [exact Hrun2|].
  destruct (Hrows 1%nat 1%nat _ 25 eq_refl eq_refl) as (r2 & Hk & Hs & _).
  exists r2. split; assumption.
Defined.

Lemma is_valid_email_clean_email_witness :
  is_valid_email (Str "a@b.c") = Ok true /\ clean_email (Str "a@b.c") = Str "a@b.c".
Proof.
  assert (H : is_valid_email (Str "a@b.c") = Ok true) by reflexivity.
  split; [exact H|]. exact (is_valid_email_clean_email (Str "a@b.c") H).
Defined.

Lemma clean_data_idempotent_witness :
  clean_data no_float no_datetime 2
    (clean_data no_float no_datetime 1 (of_records [two_at_signs]))
  = clean_data no_float no_datetime 1 (of_records [two_at_signs]).
Proof.
  apply (clean_data_idempotent no_float no_datetime 1 2). lia.
Defined.

Lemma correlate_gender_age_after_clean_witness :
  exists (table : gmap (value * bool) (list value)) means,
    fst (correlate_gender_age no_float
           (mkQA (Some (clean_data no_float no_datetime 1 (of_records [two_at_signs])))))
    = Ok table
    /\ table !! (gender (clean_row no_float no_datetime two_at_signs),
                 age_above_40 (age (clean_row no_float no_datetime two_at_signs)))
       = Some means.
Proof.
  apply (correlate_gender_age_after_clean no_float no_datetime 1
           (of_records [two_at_signs]) 0%nat
           (clean_row no_float no_datetime two_at_signs)).
  vm_compute. left. reflexivity.
Defined.


Lemma remove_rows_without_mail_numeric_email_raises_witness :
  Exists (fun ir => text_or_missing (email (snd ir)) = false) numeric_mail_frame
  /\ remove_rows_without_mail (mkQA (Some numeric_mail_frame))
     = (Raise AttributeError, mkQA (Some numeric_mail_frame)).
Proof.
  assert (H : Exists (fun ir => text_or_missing (email (snd ir)) = false) numeric_mail_frame).
  { apply List.Exists_cons_tl. apply List.Exists_cons_hd. reflexivity. }
  split; [exact H|]. exact (remove_rows_without_mail_numeric_email_raises _ H).
Defined.

Lemma remove_rows_without_mail_after_clean_witness :
  remove_rows_without_mail
    (mkQA (Some (clean_data no_float no_datetime 1 (of_records [two_at_signs]))))
  = (Ok (of_records
           (List.filter survives
              (records (clean_data no_float no_datetime 1 (of_records [two_at_signs]))))),
     mkQA (Some (clean_data no_float no_datetime 1 (of_records [two_at_signs])))).
Proof.
  apply (remove_rows_without_mail_after_clean no_float no_datetime no_tz 1
           (of_records [two_at_signs])).
  vm_compute. reflexivity.
Defined.
